(** * Board access control, ordering and card operations of the Trello-style
      board module (app/trello/models.py and app/trello/__init__.py).

    The relational store is a record of tables, each a list of rows in
    insertion order.  Request handlers run in a small session monad: they
    read and write a pending copy of the store, [commit] publishes it, and a
    handler that leaves early (abort, permission denied, database error)
    leaves the stored tables as they were. *)

From stdpp Require Import base numbers list strings option.

Open Scope string_scope.
Open Scope list_scope.
Open Scope Z_scope.

(** ** Rows of the tables (models.py) *)

(** The [User] model belongs to the host application ([app.models]); the
    board code reads its key and its name only. *)
Module User.
Record t := { id : Z; name : string }.
End User.

(** A row of the association table [board_members].  [role] is a nullable
    string column (default 'member'). *)
Module BoardMember.
Record t := { board_id : Z; user_id : Z; role : option string }.
End BoardMember.

Module TrelloBoard.
Record t := {
  id : Z;
  name : string;
  description : option string;
  background_color : string;
  is_private : bool;
  is_archived : bool;
  created_by : option Z
}.
End TrelloBoard.

(** [position] is a nullable integer column: [move_list] and [move_card]
    store whatever the request carries, null included. *)
Module TrelloList.
Record t := {
  id : Z;
  board_id : Z;
  name : string;
  position : option Z;
  is_archived : bool
}.
End TrelloList.

(** Times are seconds on the UTC clock.  [due_complete] is read for its
    truth value only. *)
Module TrelloCard.
Record t := {
  id : Z;
  list_id : Z;
  title : string;
  description : option string;
  position : option Z;
  due_date : option Z;
  due_complete : bool;
  is_archived : bool;
  cover_color : option string;
  created_by : option Z
}.
End TrelloCard.

Module TrelloLabel.
Record t := { id : Z; board_id : Z; name : string; color : string }.
End TrelloLabel.

Module TrelloComment.
Record t := { id : Z; card_id : Z; user_id : Z; content : string }.
End TrelloComment.

Module TrelloChecklist.
Record t := { id : Z; card_id : Z; name : string; position : Z }.
End TrelloChecklist.

Module TrelloChecklistItem.
Record t := {
  id : Z;
  checklist_id : Z;
  content : string;
  is_complete : bool;
  position : Z;
  completed_by : option Z;
  completed_at : option Z
}.
End TrelloChecklistItem.

Module TrelloActivity.
Record t := {
  id : Z;
  board_id : Z;
  user_id : option Z;
  action : string;
  target_type : option string;
  target_id : option Z;
  details : option (list (string * string))
}.
End TrelloActivity.

(** ** The store *)

Record DB := {
  users : list User.t;
  board_members : list BoardMember.t;
  boards : list TrelloBoard.t;
  lists : list TrelloList.t;
  cards : list TrelloCard.t;
  labels : list TrelloLabel.t;
  comments : list TrelloComment.t;
  checklists : list TrelloChecklist.t;
  checklist_items : list TrelloChecklistItem.t;
  activities : list TrelloActivity.t
}.

Module Sql.
(** [Model.query.get(id)]: the row with that primary key, if any. *)
Definition get {A} (key : A → Z) (id : Z) (rows : list A) : option A :=
  head (filter (λ r, key r = id) rows).

(** The key the database gives a new row: one that no row of the table
    holds, here one more than the largest key in use. *)
Definition next_id (keys : list Z) : Z := 1 + foldr Z.max 0 keys.

(** [func.max(column)] over the selected rows: NULLs are skipped, and the
    result is NULL when nothing is left. *)
Definition max (column : list (option Z)) : option Z :=
  foldr (λ x acc,
           match x, acc with
           | Some a, Some b => Some (Z.max a b)
           | Some a, None => Some a
           | None, _ => acc
           end) None column.

(** Rewrite the row with key [id] in place. *)
Definition update {A} (key : A → Z) (id : Z) (f : A → A) (rows : list A) : list A :=
  (λ r, if decide (key r = id) then f r else r) <$> rows.

(** [session.delete(row)] of the row with key [id]. *)
Definition delete {A} (key : A → Z) (id : Z) (rows : list A) : list A :=
  filter (λ r, key r ≠ id) rows.
End Sql.

Arguments Sql.next_id : simpl never.

(** Python's [x or 0] on an optional integer: [None] and [0] are falsy. *)
Definition or_zero (x : option Z) : Z :=
  match x with
  | Some z => if decide (z = 0) then 0 else z
  | None => 0
  end.

(** ** Model methods (models.py) *)

(** [TrelloBoard.get_member_role]: the role of the first [board_members] row
    for this board and user. *)
Definition get_member_role (db : DB) (self : TrelloBoard.t) (user_id : Z) : option string :=
  head (filter (λ r, BoardMember.board_id r = TrelloBoard.id self
                     ∧ BoardMember.user_id r = user_id) (board_members db))
  ≫= BoardMember.role.

(** The relationship [TrelloBoard.members]: the users joined to this board
    through [board_members]. *)
Definition members (db : DB) (self : TrelloBoard.t) : list User.t :=
  filter (λ u, User.id u ∈
               (BoardMember.user_id <$>
                  filter (λ r, BoardMember.board_id r = TrelloBoard.id self)
                         (board_members db)))
         (users db).

Definition is_owner (db : DB) (self : TrelloBoard.t) (user_id : Z) : bool :=
  bool_decide (TrelloBoard.created_by self = Some user_id)
  || bool_decide (get_member_role db self user_id = Some "owner").

Definition can_edit (db : DB) (self : TrelloBoard.t) (user_id : Z) : bool :=
  let role := get_member_role db self user_id in
  match role with
  | Some r => bool_decide (r ∈ ["owner"; "admin"; "member"])
  | None => false
  end
  || bool_decide (TrelloBoard.created_by self = Some user_id).

Definition can_view (db : DB) (self : TrelloBoard.t) (user_id : Z) : bool :=
  if negb (TrelloBoard.is_private self) then true
  else bool_decide (user_id ∈ (User.id <$> members db self))
       || bool_decide (TrelloBoard.created_by self = Some user_id).

(** [TrelloCard.is_overdue], with [utcnow] the reading of the clock. *)
Definition is_overdue (utcnow : Z) (self : TrelloCard.t) : bool :=
  match TrelloCard.due_date self with
  | None => false
  | Some due =>
      if TrelloCard.due_complete self then false
      else bool_decide (utcnow > due)
  end.

(** [TrelloCard.checklist_progress]: (completed, total) over the items of
    the card's checklists. *)
Definition checklist_progress (db : DB) (self : TrelloCard.t) : Z * Z :=
  foldl (λ acc checklist,
           foldl (λ '(completed, total) item,
                    (if TrelloChecklistItem.is_complete item
                     then completed + 1 else completed, total + 1))
                 acc
                 (filter (λ i, TrelloChecklistItem.checklist_id i
                               = TrelloChecklist.id checklist)
                         (checklist_items db)))
        (0, 0)
        (filter (λ c, TrelloChecklist.card_id c = TrelloCard.id self)
                (checklists db)).

(** ** Requests, responses and the session (Flask and SQLAlchemy) *)

(** The values the JSON bodies built here carry; a body is a dictionary
    from field names to such values. *)
Inductive Json :=
| JBool (b : bool)
| JInt (n : Z)
| JStr (s : string)
| JInts (items : list Z).

(** What a view function hands back.  [abort] is the exit of
    [get_or_404]; [unhandled] is an exception that no handler catches. *)
Inductive Response :=
| jsonify (body : list (string * Json)) (status : Z)
| redirect (endpoint : string) (id : Z)
| render_template (template : string)
| abort (status : Z)
| unhandled (exception : string).

(** [stored] is what the database holds, [pending] what the session sees:
    the stored rows together with the writes not yet committed. *)
Record Session := { stored : DB; pending : DB }.

Inductive Step (A : Type) :=
| Next (a : A)
| Return (r : Response).
Arguments Next {A} a.
Arguments Return {A} r.

Definition View (A : Type) : Type := Session → Step A * Session.

#[export] Instance view_ret : MRet View := λ A a s, (Next a, s).
#[export] Instance view_bind : MBind View := λ A B k m s,
  match m s with
  | (Next a, s') => k a s'
  | (Return r, s') => (Return r, s')
  end.

Definition return_ {A} (r : Response) : View A := λ s, (Return r, s).

Definition query {A} (q : DB → A) : View A := λ s, (Next (q (pending s)), s).

Definition write (f : DB → DB) : View unit :=
  λ s, (Next (), {| stored := stored s; pending := f (pending s) |}).

(** [db.session.commit()] *)
Definition commit : View unit :=
  λ s, (Next (), {| stored := pending s; pending := pending s |}).

(** The integers the database holds in a column of type [db.Integer]:
    signed 64-bit numbers. *)
Definition storable (n : Z) : bool := bool_decide (- 2 ^ 63 ≤ n < 2 ^ 63).
Arguments storable : simpl never.

(** The driver binds a value as a parameter of a statement: a NULL always,
    an integer when it is storable, and it raises [OverflowError] on any
    other.  A view that ends here has committed nothing. *)
Definition bind_param (value : option Z) : View unit :=
  match value with
  | None => mret ()
  | Some n => if storable n then mret () else return_ (unhandled "OverflowError")
  end.

(** One request: the view runs in a session opened on the database, and
    what it did not commit is dropped when the request ends. *)
Definition serve (view : View Response) (db : DB) : Response * DB :=
  match view {| stored := db; pending := db |} with
  | (Next r, s) => (r, stored s)
  | (Return r, s) => (r, stored s)
  end.

Definition get_or_404 {A} (table : DB → list A) (key : A → Z) (id : Z) : View A :=
  row ← query (λ db, Sql.get key id (table db));
  match row with
  | Some r => mret r
  | None => return_ (abort 404)
  end.

(** A many-to-one attribute such as [card.list] or [lst.board]: [None] when
    the row referred to is gone, and the attribute access that follows
    raises. *)
Definition related {A} (table : DB → list A) (key : A → Z) (id : Z) : View A :=
  row ← query (λ db, Sql.get key id (table db));
  match row with
  | Some r => mret r
  | None => return_ (unhandled "AttributeError")
  end.

Fixpoint for_each {A} (xs : list A) (body : A → View unit) : View unit :=
  match xs with
  | [] => mret ()
  | x :: rest => body x ≫= λ _, for_each rest body
  end.

(** *** Writers of the tables *)

Definition set_boards (f : list TrelloBoard.t → list TrelloBoard.t) (db : DB) : DB :=
  {| users := users db; board_members := board_members db;
     boards := f (boards db); lists := lists db; cards := cards db;
     labels := labels db; comments := comments db;
     checklists := checklists db; checklist_items := checklist_items db;
     activities := activities db |}.

Definition set_lists (f : list TrelloList.t → list TrelloList.t) (db : DB) : DB :=
  {| users := users db; board_members := board_members db;
     boards := boards db; lists := f (lists db); cards := cards db;
     labels := labels db; comments := comments db;
     checklists := checklists db; checklist_items := checklist_items db;
     activities := activities db |}.

Definition set_cards (f : list TrelloCard.t → list TrelloCard.t) (db : DB) : DB :=
  {| users := users db; board_members := board_members db;
     boards := boards db; lists := lists db; cards := f (cards db);
     labels := labels db; comments := comments db;
     checklists := checklists db; checklist_items := checklist_items db;
     activities := activities db |}.

Definition set_labels (f : list TrelloLabel.t → list TrelloLabel.t) (db : DB) : DB :=
  {| users := users db; board_members := board_members db;
     boards := boards db; lists := lists db; cards := cards db;
     labels := f (labels db); comments := comments db;
     checklists := checklists db; checklist_items := checklist_items db;
     activities := activities db |}.

Definition set_comments (f : list TrelloComment.t → list TrelloComment.t) (db : DB) : DB :=
  {| users := users db; board_members := board_members db;
     boards := boards db; lists := lists db; cards := cards db;
     labels := labels db; comments := f (comments db);
     checklists := checklists db; checklist_items := checklist_items db;
     activities := activities db |}.

Definition set_checklist_items
    (f : list TrelloChecklistItem.t → list TrelloChecklistItem.t) (db : DB) : DB :=
  {| users := users db; board_members := board_members db;
     boards := boards db; lists := lists db; cards := cards db;
     labels := labels db; comments := comments db;
     checklists := checklists db; checklist_items := f (checklist_items db);
     activities := activities db |}.

Definition set_activities (f : list TrelloActivity.t → list TrelloActivity.t) (db : DB) : DB :=
  {| users := users db; board_members := board_members db;
     boards := boards db; lists := lists db; cards := cards db;
     labels := labels db; comments := comments db;
     checklists := checklists db; checklist_items := checklist_items db;
     activities := f (activities db) |}.

(** [db.session.add(row)]: the row joins its table under the key the
    database assigns.  The Python object learns that key at the next flush
    only, so a view that reads [row.id] before then reads [None]. *)
Definition add {A} (table : DB → list A) (set : (list A → list A) → DB → DB)
    (key : A → Z) (row : Z → A) : View Z :=
  id ← query (λ db, Sql.next_id (key <$> table db));
  write (set (λ rows, rows ++ [row id])) ≫= λ _, mret id.

(** ** The views (app/trello/__init__.py)

    Every view is behind [login_required]: [current_user] is the key of the
    user who is logged in. *)

Definition permission_denied : Response :=
  jsonify [("error", JStr "Permission denied")] 403.

Definition success : Response := jsonify [("success", JBool true)] 200.

Definition log_activity (current_user board_id : Z) (action : string)
    (target_type : option string) (target_id : option Z)
    (details : option (list (string * string))) : View unit :=
  add activities set_activities TrelloActivity.id
      (λ id, {| TrelloActivity.id := id;
                TrelloActivity.board_id := board_id;
                TrelloActivity.user_id := Some current_user;
                TrelloActivity.action := action;
                TrelloActivity.target_type := target_type;
                TrelloActivity.target_id := target_id;
                TrelloActivity.details := details |});;
  mret ().

Definition check_board_access (current_user : Z) (board : TrelloBoard.t)
    (require_edit : bool) : View bool :=
  query (λ db, if require_edit then can_edit db board current_user
               else can_view db board current_user).

(** *** Boards *)

Inductive Method := GET | POST.

(** The fields of the board form; [None] is a field the request lacks. *)
Record BoardForm := {
  form_name : option string;
  form_description : option string;
  form_background_color : option string;
  form_is_private : option string
}.

Definition default_labels : list (string * string) :=
  [("", "emerald"); ("", "blue"); ("", "purple");
   ("", "red"); ("", "yellow"); ("", "orange")].

Definition default_lists : list string := ["To Do"; "In Progress"; "Done"].

(** [enumerate(xs)] *)
Definition enumerate {A} (xs : list A) : list (Z * A) :=
  imap (λ i x, (Z.of_nat i, x)) xs.

Definition create_board (current_user : Z) (method : Method) (form : BoardForm)
    : View Response :=
  match method with
  | GET => mret (render_template "trello/create_board.html")
  | POST =>
      (* add(board) and flush(): [name] is a NOT NULL column, and the form
         is read without a default for it *)
      match form_name form with
      | None => return_ (unhandled "IntegrityError")
      | Some name =>
          board_id ← add boards set_boards TrelloBoard.id
            (λ id, {| TrelloBoard.id := id;
                      TrelloBoard.name := name;
                      TrelloBoard.description := form_description form;
                      TrelloBoard.background_color :=
                        default "slate" (form_background_color form);
                      TrelloBoard.is_private :=
                        bool_decide (form_is_private form = Some "on");
                      TrelloBoard.is_archived := false;
                      TrelloBoard.created_by := Some current_user |});
          for_each default_labels (λ '(name, color),
            add labels set_labels TrelloLabel.id
                (λ id, {| TrelloLabel.id := id;
                          TrelloLabel.board_id := board_id;
                          TrelloLabel.name := name;
                          TrelloLabel.color := color |});;
            mret ());;
          for_each (enumerate default_lists) (λ '(i, name),
            add lists set_lists TrelloList.id
                (λ id, {| TrelloList.id := id;
                          TrelloList.board_id := board_id;
                          TrelloList.name := name;
                          TrelloList.position := Some i;
                          TrelloList.is_archived := false |});;
            mret ());;
          log_activity current_user board_id "created_board"
                       (Some "board") (Some board_id) None;;
          commit;;
          mret (redirect "trello.view_board" board_id)
      end
  end.

(** *** Lists *)

Definition create_list (current_user board_id : Z) (name : option string)
    (xhr : bool) : View Response :=
  board ← get_or_404 boards TrelloBoard.id board_id;
  allowed ← check_board_access current_user board true;
  if negb allowed then return_ permission_denied else
  max_pos ← query (λ db,
    or_zero (Sql.max (TrelloList.position <$>
                        filter (λ l, TrelloList.board_id l = board_id) (lists db))));
  let lst_name := default "New List" name in
  lst_id ← add lists set_lists TrelloList.id
    (λ id, {| TrelloList.id := id;
              TrelloList.board_id := board_id;
              TrelloList.name := lst_name;
              TrelloList.position := Some (max_pos + 1);
              TrelloList.is_archived := false |});
  (* [lst.id] is read before any flush: the entry carries no target *)
  log_activity current_user board_id "created_list" (Some "list") None
               (Some [("name", lst_name)]);;
  (* the INSERT of the commit binds the position *)
  bind_param (Some (max_pos + 1));;
  commit;;
  if xhr
  then mret (jsonify [("id", JInt lst_id); ("name", JStr lst_name)] 200)
  else mret (redirect "trello.view_board" board_id).

(** *** Cards *)

Definition create_card (current_user list_id : Z) (title : option string)
    (xhr : bool) : View Response :=
  lst ← get_or_404 lists TrelloList.id list_id;
  board ← related boards TrelloBoard.id (TrelloList.board_id lst);
  allowed ← check_board_access current_user board true;
  if negb allowed then return_ permission_denied else
  max_pos ← query (λ db,
    or_zero (Sql.max (TrelloCard.position <$>
                        filter (λ c, TrelloCard.list_id c = list_id) (cards db))));
  let card_title := default "New Card" title in
  card_id ← add cards set_cards TrelloCard.id
    (λ id, {| TrelloCard.id := id;
              TrelloCard.list_id := list_id;
              TrelloCard.title := card_title;
              TrelloCard.description := None;
              TrelloCard.position := Some (max_pos + 1);
              TrelloCard.due_date := None;
              TrelloCard.due_complete := false;
              TrelloCard.is_archived := false;
              TrelloCard.cover_color := None;
              TrelloCard.created_by := Some current_user |});
  (* [card.id] is read before any flush: the entry carries no target *)
  log_activity current_user (TrelloBoard.id board) "created_card" (Some "card")
               None (Some [("title", card_title)]);;
  (* the INSERT of the commit binds the position *)
  bind_param (Some (max_pos + 1));;
  commit;;
  if xhr
  then mret (jsonify [("id", JInt card_id); ("title", JStr card_title);
                      ("list_id", JInt list_id)] 200)
  else mret (redirect "trello.view_board" (TrelloBoard.id board)).

Definition set_card_list_id (list_id : Z) (c : TrelloCard.t) : TrelloCard.t :=
  {| TrelloCard.id := TrelloCard.id c;
     TrelloCard.list_id := list_id;
     TrelloCard.title := TrelloCard.title c;
     TrelloCard.description := TrelloCard.description c;
     TrelloCard.position := TrelloCard.position c;
     TrelloCard.due_date := TrelloCard.due_date c;
     TrelloCard.due_complete := TrelloCard.due_complete c;
     TrelloCard.is_archived := TrelloCard.is_archived c;
     TrelloCard.cover_color := TrelloCard.cover_color c;
     TrelloCard.created_by := TrelloCard.created_by c |}.

Definition set_card_position (position : option Z) (c : TrelloCard.t) : TrelloCard.t :=
  {| TrelloCard.id := TrelloCard.id c;
     TrelloCard.list_id := TrelloCard.list_id c;
     TrelloCard.title := TrelloCard.title c;
     TrelloCard.description := TrelloCard.description c;
     TrelloCard.position := position;
     TrelloCard.due_date := TrelloCard.due_date c;
     TrelloCard.due_complete := TrelloCard.due_complete c;
     TrelloCard.is_archived := TrelloCard.is_archived c;
     TrelloCard.cover_color := TrelloCard.cover_color c;
     TrelloCard.created_by := TrelloCard.created_by c |}.

(** The JSON object of a move request: each key may be missing, and
    ['position'] may be present with a null value. *)
Record MoveData := {
  data_list_id : option Z;
  data_position : option (option Z)
}.

Definition move_card (current_user id : Z) (data : MoveData) : View Response :=
  card ← get_or_404 cards TrelloCard.id id;
  lst ← related lists TrelloList.id (TrelloCard.list_id card);
  board ← related boards TrelloBoard.id (TrelloList.board_id lst);
  allowed ← check_board_access current_user board true;
  if negb allowed then return_ permission_denied else
  let old_list := TrelloList.name lst in
  match data_list_id data with
  | Some target =>
      (* the SELECT of [query.get] binds the key *)
      bind_param (Some target);;
      new_list ← query (λ db, Sql.get TrelloList.id target (lists db));
      match new_list with
      | Some new_list =>
          if decide (TrelloList.board_id new_list = TrelloBoard.id board)
          then
            write (set_cards (Sql.update TrelloCard.id id
                                (set_card_list_id (TrelloList.id new_list))));;
            log_activity current_user (TrelloBoard.id board) "moved_card"
                         (Some "card") (Some id)
                         (Some [("from", old_list);
                                ("to", TrelloList.name new_list)])
          else mret ()
      | None => mret ()
      end
  | None => mret ()
  end;;
  match data_position data with
  | Some position =>
      write (set_cards (Sql.update TrelloCard.id id (set_card_position position)));;
      (* the UPDATE of the commit binds the position *)
      bind_param position
  | None => mret ()
  end;;
  commit;;
  mret success.

(** *** Comments *)

Definition delete_comment (current_user id : Z) : View Response :=
  comment ← get_or_404 comments TrelloComment.id id;
  card ← related cards TrelloCard.id (TrelloComment.card_id comment);
  lst ← related lists TrelloList.id (TrelloCard.list_id card);
  board ← related boards TrelloBoard.id (TrelloList.board_id lst);
  (* Only comment author or board owner can delete *)
  owner ← query (λ db, is_owner db board current_user);
  if bool_decide (TrelloComment.user_id comment ≠ current_user) && negb owner
  then return_ permission_denied else
  write (set_comments (Sql.delete TrelloComment.id id));;
  commit;;
  mret success.

(** *** Checklists *)

Definition toggle (current_user utcnow : Z) (item : TrelloChecklistItem.t)
    : TrelloChecklistItem.t :=
  let is_complete := negb (TrelloChecklistItem.is_complete item) in
  {| TrelloChecklistItem.id := TrelloChecklistItem.id item;
     TrelloChecklistItem.checklist_id := TrelloChecklistItem.checklist_id item;
     TrelloChecklistItem.content := TrelloChecklistItem.content item;
     TrelloChecklistItem.is_complete := is_complete;
     TrelloChecklistItem.position := TrelloChecklistItem.position item;
     TrelloChecklistItem.completed_by :=
       if is_complete then Some current_user else None;
     TrelloChecklistItem.completed_at :=
       if is_complete then Some utcnow else None |}.

Definition toggle_checklist_item (current_user utcnow id : Z) : View Response :=
  item ← get_or_404 checklist_items TrelloChecklistItem.id id;
  checklist ← related checklists TrelloChecklist.id
                      (TrelloChecklistItem.checklist_id item);
  card ← related cards TrelloCard.id (TrelloChecklist.card_id checklist);
  lst ← related lists TrelloList.id (TrelloCard.list_id card);
  board ← related boards TrelloBoard.id (TrelloList.board_id lst);
  allowed ← check_board_access current_user board true;
  if negb allowed then return_ permission_denied else
  write (set_checklist_items
           (Sql.update TrelloChecklistItem.id id (toggle current_user utcnow)));;
  commit;;
  '(completed, total) ← query (λ db, checklist_progress db card);
  mret (jsonify [("is_complete",
                  JBool (negb (TrelloChecklistItem.is_complete item)));
                 ("checklist_progress", JInts [completed; total])] 200).

(** ** The other views of the blueprint *)

(** *** Further writers and field updates *)

Definition set_board_members (f : list BoardMember.t → list BoardMember.t) (db : DB) : DB :=
  {| users := users db; board_members := f (board_members db);
     boards := boards db; lists := lists db; cards := cards db;
     labels := labels db; comments := comments db;
     checklists := checklists db; checklist_items := checklist_items db;
     activities := activities db |}.

Definition set_checklists (f : list TrelloChecklist.t → list TrelloChecklist.t) (db : DB) : DB :=
  {| users := users db; board_members := board_members db;
     boards := boards db; lists := lists db; cards := cards db;
     labels := labels db; comments := comments db;
     checklists := f (checklists db); checklist_items := checklist_items db;
     activities := activities db |}.

Definition set_board_is_archived (is_archived : bool) (b : TrelloBoard.t) : TrelloBoard.t :=
  {| TrelloBoard.id := TrelloBoard.id b;
     TrelloBoard.name := TrelloBoard.name b;
     TrelloBoard.description := TrelloBoard.description b;
     TrelloBoard.background_color := TrelloBoard.background_color b;
     TrelloBoard.is_private := TrelloBoard.is_private b;
     TrelloBoard.is_archived := is_archived;
     TrelloBoard.created_by := TrelloBoard.created_by b |}.

Definition set_list_name (name : string) (l : TrelloList.t) : TrelloList.t :=
  {| TrelloList.id := TrelloList.id l;
     TrelloList.board_id := TrelloList.board_id l;
     TrelloList.name := name;
     TrelloList.position := TrelloList.position l;
     TrelloList.is_archived := TrelloList.is_archived l |}.

Definition set_list_position (position : option Z) (l : TrelloList.t) : TrelloList.t :=
  {| TrelloList.id := TrelloList.id l;
     TrelloList.board_id := TrelloList.board_id l;
     TrelloList.name := TrelloList.name l;
     TrelloList.position := position;
     TrelloList.is_archived := TrelloList.is_archived l |}.

Definition set_list_is_archived (is_archived : bool) (l : TrelloList.t) : TrelloList.t :=
  {| TrelloList.id := TrelloList.id l;
     TrelloList.board_id := TrelloList.board_id l;
     TrelloList.name := TrelloList.name l;
     TrelloList.position := TrelloList.position l;
     TrelloList.is_archived := is_archived |}.

Definition set_card_is_archived (is_archived : bool) (c : TrelloCard.t) : TrelloCard.t :=
  {| TrelloCard.id := TrelloCard.id c;
     TrelloCard.list_id := TrelloCard.list_id c;
     TrelloCard.title := TrelloCard.title c;
     TrelloCard.description := TrelloCard.description c;
     TrelloCard.position := TrelloCard.position c;
     TrelloCard.due_date := TrelloCard.due_date c;
     TrelloCard.due_complete := TrelloCard.due_complete c;
     TrelloCard.is_archived := is_archived;
     TrelloCard.cover_color := TrelloCard.cover_color c;
     TrelloCard.created_by := TrelloCard.created_by c |}.

(** [request.json.get(key, default)]: the default when the key is missing,
    and [None] when the key is there with a null. *)
Definition json_get {A} (default : A) (field : option (option A)) : option A :=
  match field with
  | None => Some default
  | Some value => value
  end.

(** Python's [a or b] on optional strings: [None] and the empty string are
    falsy. *)
Definition or_else (a b : option string) : option string :=
  match a with
  | Some s => if decide (s = "") then b else a
  | None => b
  end.

(** *** [session.delete] and the cascades of models.py

    The relationships are declared with cascade 'all, delete-orphan':
    lists, labels and activities of a board, cards of a list, comments and
    checklists of a card, items of a checklist.  Deleting a board also
    empties its collection [members]: the session loads the members, the
    users joined to the board, and deletes the row of [board_members] of
    each; a row whose user is not in the users table is not loaded and
    stays. *)

Definition delete_checklist_rows (ids : list Z) (db : DB) : DB :=
  set_checklist_items
    (filter (λ i, TrelloChecklistItem.checklist_id i ∉ ids))
    (set_checklists (filter (λ c, TrelloChecklist.id c ∉ ids)) db).

Definition delete_card_rows (ids : list Z) (db : DB) : DB :=
  delete_checklist_rows
    (TrelloChecklist.id <$>
       filter (λ c, TrelloChecklist.card_id c ∈ ids) (checklists db))
    (set_comments
       (filter (λ c, TrelloComment.card_id c ∉ ids))
       (set_cards (filter (λ c, TrelloCard.id c ∉ ids)) db)).

Definition delete_list_rows (ids : list Z) (db : DB) : DB :=
  delete_card_rows
    (TrelloCard.id <$> filter (λ c, TrelloCard.list_id c ∈ ids) (cards db))
    (set_lists (filter (λ l, TrelloList.id l ∉ ids)) db).

Definition delete_board_rows (board : TrelloBoard.t) (db : DB) : DB :=
  let id := TrelloBoard.id board in
  let loaded := User.id <$> members db board in
  delete_list_rows
    (TrelloList.id <$> filter (λ l, TrelloList.board_id l = id) (lists db))
    (set_labels
       (filter (λ l, TrelloLabel.board_id l ≠ id))
       (set_activities
          (filter (λ a, TrelloActivity.board_id a ≠ id))
          (set_board_members
             (filter (λ r, ¬ (BoardMember.board_id r = id
                              ∧ BoardMember.user_id r ∈ loaded)))
             (set_boards (Sql.delete TrelloBoard.id id) db)))).

(** *** The index *)

(** The boards handed to the index template. *)
Record IndexContext := {
  my_boards : list TrelloBoard.t;
  member_boards : list TrelloBoard.t;
  public_boards : list TrelloBoard.t
}.

(** Rows of one board are one object in the session, so [b not in
    all_boards] is a test on keys, and the removal of duplicates from
    [all_boards] does not change it. *)
Definition index (current_user : Z) (db : DB) : IndexContext :=
  let my_boards :=
    filter (λ b, TrelloBoard.created_by b = Some current_user
                 ∧ TrelloBoard.is_archived b = false) (boards db) in
  let member_boards :=
    filter (λ b, TrelloBoard.id b ∈
                   (BoardMember.board_id <$>
                      filter (λ r, BoardMember.user_id r = current_user)
                             (board_members db))
                 ∧ TrelloBoard.is_archived b = false) (boards db) in
  let public_boards :=
    filter (λ b, TrelloBoard.is_private b = false
                 ∧ TrelloBoard.is_archived b = false) (boards db) in
  let all_boards := my_boards ++ member_boards in
  {| my_boards := my_boards;
     member_boards :=
       filter (λ b, TrelloBoard.created_by b ≠ Some current_user) member_boards;
     public_boards :=
       filter (λ b, TrelloBoard.id b ∉ (TrelloBoard.id <$> all_boards))
              public_boards |}.

(** *** Board settings *)

(** A response, or a redirect to a page that takes no argument. *)
Inductive Reply :=
| respond (r : Response)
| redirect_url_for (endpoint : string).

Definition serve_reply (view : View Reply) (db : DB) : Reply * DB :=
  match view {| stored := db; pending := db |} with
  | (Next r, s) => (r, stored s)
  | (Return r, s) => (respond r, stored s)
  end.

Definition edit_board (current_user id : Z) (method : Method) (form : BoardForm)
    : View Response :=
  board ← get_or_404 boards TrelloBoard.id id;
  owner ← query (λ db, is_owner db board current_user);
  if negb owner then return_ (redirect "trello.view_board" id) else
  match method with
  | GET => mret (render_template "trello/edit_board.html")
  | POST =>
      match form_name form with
      | None =>
          (* [name] is a NOT NULL column: the commit fails *)
          return_ (unhandled "IntegrityError")
      | Some name =>
          write (set_boards (Sql.update TrelloBoard.id id (λ b,
            {| TrelloBoard.id := TrelloBoard.id b;
               TrelloBoard.name := name;
               TrelloBoard.description := form_description form;
               TrelloBoard.background_color :=
                 default "slate" (form_background_color form);
               TrelloBoard.is_private :=
                 bool_decide (form_is_private form = Some "on");
               TrelloBoard.is_archived := TrelloBoard.is_archived b;
               TrelloBoard.created_by := TrelloBoard.created_by b |})));;
          log_activity current_user (TrelloBoard.id board) "updated_board"
                       (Some "board") (Some (TrelloBoard.id board)) None;;
          commit;;
          mret (redirect "trello.view_board" id)
      end
  end.

Definition archive_board (current_user id : Z) : View Reply :=
  board ← get_or_404 boards TrelloBoard.id id;
  owner ← query (λ db, is_owner db board current_user);
  if negb owner then return_ permission_denied else
  write (set_boards (Sql.update TrelloBoard.id id (set_board_is_archived true)));;
  log_activity current_user (TrelloBoard.id board) "archived_board"
               (Some "board") (Some (TrelloBoard.id board)) None;;
  commit;;
  mret (redirect_url_for "trello.index").

Definition delete_board (current_user id : Z) : View Reply :=
  board ← get_or_404 boards TrelloBoard.id id;
  owner ← query (λ db, is_owner db board current_user);
  if negb owner then mret (redirect_url_for "trello.index") else
  write (delete_board_rows board);;
  commit;;
  mret (redirect_url_for "trello.index").

(** *** Lists *)

Definition rename_list (current_user id : Z) (name : option string)
    : View Response :=
  lst ← get_or_404 lists TrelloList.id id;
  board ← related boards TrelloBoard.id (TrelloList.board_id lst);
  allowed ← check_board_access current_user board true;
  if negb allowed then return_ permission_denied else
  let old_name := TrelloList.name lst in
  let new_name := default (TrelloList.name lst) name in
  write (set_lists (Sql.update TrelloList.id id (set_list_name new_name)));;
  log_activity current_user (TrelloBoard.id board) "renamed_list" (Some "list")
               (Some id) (Some [("old_name", old_name); ("new_name", new_name)]);;
  commit;;
  mret success.

Definition archive_list (current_user id : Z) : View Response :=
  lst ← get_or_404 lists TrelloList.id id;
  board ← related boards TrelloBoard.id (TrelloList.board_id lst);
  allowed ← check_board_access current_user board true;
  if negb allowed then return_ permission_denied else
  write (set_lists (Sql.update TrelloList.id id (set_list_is_archived true)));;
  log_activity current_user (TrelloBoard.id board) "archived_list" (Some "list")
               (Some id) (Some [("name", TrelloList.name lst)]);;
  commit;;
  mret success.

(** [position] is ['position'] of the JSON object of the request. *)
Definition move_list (current_user id : Z) (position : option (option Z))
    : View Response :=
  lst ← get_or_404 lists TrelloList.id id;
  board ← related boards TrelloBoard.id (TrelloList.board_id lst);
  allowed ← check_board_access current_user board true;
  if negb allowed then return_ permission_denied else
  let new_position := json_get 0 position in
  write (set_lists (Sql.update TrelloList.id id (set_list_position new_position)));;
  (* the UPDATE of the commit binds the position *)
  bind_param new_position;;
  commit;;
  mret success.

(** *** Cards *)

Definition archive_card (current_user id : Z) : View Response :=
  card ← get_or_404 cards TrelloCard.id id;
  lst ← related lists TrelloList.id (TrelloCard.list_id card);
  board ← related boards TrelloBoard.id (TrelloList.board_id lst);
  allowed ← check_board_access current_user board true;
  if negb allowed then return_ permission_denied else
  write (set_cards (Sql.update TrelloCard.id id (set_card_is_archived true)));;
  log_activity current_user (TrelloBoard.id board) "archived_card" (Some "card")
               (Some id) (Some [("title", TrelloCard.title card)]);;
  commit;;
  mret success.

Definition delete_card (current_user id : Z) : View Response :=
  card ← get_or_404 cards TrelloCard.id id;
  lst ← related lists TrelloList.id (TrelloCard.list_id card);
  board ← related boards TrelloBoard.id (TrelloList.board_id lst);
  allowed ← check_board_access current_user board true;
  if negb allowed then return_ permission_denied else
  let title := TrelloCard.title card in
  write (delete_card_rows [id]);;
  log_activity current_user (TrelloBoard.id board) "deleted_card" (Some "card")
               (Some id) (Some [("title", title)]);;
  commit;;
  mret success.

(** *** Comments *)

(** The body of a request to [add_comment], as far as the view reads it:
    a JSON object with its field ['content'] ([None] when the field is
    missing or null), or a posted form with its field ['content']. *)
Inductive CommentBody :=
| json_body (content : option string)
| form_body (content : option string).

(** [request.json]: a body that is not JSON ends the request with status
    415. *)
Definition request_json (body : CommentBody) : View (option string) :=
  match body with
  | json_body content => mret content
  | form_body _ => return_ (abort 415)
  end.

(** [request.form.get('content')]: the form of a JSON request is empty. *)
Definition request_form_get (body : CommentBody) : option string :=
  match body with
  | json_body _ => None
  | form_body content => content
  end.

(** The ['created_at'] field of the answer is left out, as the rows here
    carry no creation time. *)
Definition add_comment (current_user : User.t) (card_id : Z) (body : CommentBody)
    : View Response :=
  card ← get_or_404 cards TrelloCard.id card_id;
  lst ← related lists TrelloList.id (TrelloCard.list_id card);
  board ← related boards TrelloBoard.id (TrelloList.board_id lst);
  allowed ← check_board_access (User.id current_user) board true;
  if negb allowed then return_ permission_denied else
  json_content ← request_json body;
  match or_else json_content (request_form_get body) with
  | None => return_ (jsonify [("error", JStr "Comment content required")] 400)
  | Some content =>
      if decide (content = "")
      then return_ (jsonify [("error", JStr "Comment content required")] 400)
      else
        comment_id ← add comments set_comments TrelloComment.id
          (λ id, {| TrelloComment.id := id;
                    TrelloComment.card_id := card_id;
                    TrelloComment.user_id := User.id current_user;
                    TrelloComment.content := content |});
        log_activity (User.id current_user) (TrelloBoard.id board)
                     "added_comment" (Some "card") (Some card_id) None;;
        commit;;
        mret (jsonify [("id", JInt comment_id);
                       ("user", JStr (User.name current_user));
                       ("content", JStr content)] 200)
  end.

(** *** Checklists *)

Definition add_checklist (current_user card_id : Z) (name : option (option string))
    : View Response :=
  card ← get_or_404 cards TrelloCard.id card_id;
  lst ← related lists TrelloList.id (TrelloCard.list_id card);
  board ← related boards TrelloBoard.id (TrelloList.board_id lst);
  allowed ← check_board_access current_user board true;
  if negb allowed then return_ permission_denied else
  match json_get "Checklist" name with
  | None => return_ (unhandled "IntegrityError")
  | Some name =>
      checklist_id ← add checklists set_checklists TrelloChecklist.id
        (λ id, {| TrelloChecklist.id := id;
                  TrelloChecklist.card_id := card_id;
                  TrelloChecklist.name := name;
                  TrelloChecklist.position := 0 |});
      commit;;
      mret (jsonify [("id", JInt checklist_id); ("name", JStr name)] 200)
  end.

Definition add_checklist_item (current_user id : Z)
    (content : option (option string)) : View Response :=
  checklist ← get_or_404 checklists TrelloChecklist.id id;
  card ← related cards TrelloCard.id (TrelloChecklist.card_id checklist);
  lst ← related lists TrelloList.id (TrelloCard.list_id card);
  board ← related boards TrelloBoard.id (TrelloList.board_id lst);
  allowed ← check_board_access current_user board true;
  if negb allowed then return_ permission_denied else
  match json_get "" content with
  | None => return_ (unhandled "IntegrityError")
  | Some content =>
      item_id ← add checklist_items set_checklist_items TrelloChecklistItem.id
        (λ item_id, {| TrelloChecklistItem.id := item_id;
                       TrelloChecklistItem.checklist_id := id;
                       TrelloChecklistItem.content := content;
                       TrelloChecklistItem.is_complete := false;
                       TrelloChecklistItem.position := 0;
                       TrelloChecklistItem.completed_by := None;
                       TrelloChecklistItem.completed_at := None |});
      commit;;
      mret (jsonify [("id", JInt item_id); ("content", JStr content);
                     ("is_complete", JBool false)] 200)
  end.

Definition delete_checklist (current_user id : Z) : View Response :=
  checklist ← get_or_404 checklists TrelloChecklist.id id;
  card ← related cards TrelloCard.id (TrelloChecklist.card_id checklist);
  lst ← related lists TrelloList.id (TrelloCard.list_id card);
  board ← related boards TrelloBoard.id (TrelloList.board_id lst);
  allowed ← check_board_access current_user board true;
  if negb allowed then return_ permission_denied else
  write (delete_checklist_rows [id]);;
  commit;;
  mret success.

(** *** Board members *)

(** [user_id] and [role] are the fields of the JSON object of the request. *)
Definition add_board_member (current_user id : Z) (user_id : option Z)
    (role : option (option string)) : View Response :=
  board ← get_or_404 boards TrelloBoard.id id;
  owner ← query (λ db, is_owner db board current_user);
  if negb owner then return_ permission_denied else
  let role := json_get "member" role in
  user ← query (λ db, user_id ≫= λ user_id, Sql.get User.id user_id (users db));
  match user with
  | None => return_ (jsonify [("error", JStr "User not found")] 404)
  | Some user =>
      is_member ← query (λ db,
        bool_decide (User.id user ∈ (User.id <$> members db board)));
      (if is_member : bool then mret () : View unit
       else
         write (set_board_members (λ rows, rows ++
           [{| BoardMember.board_id := TrelloBoard.id board;
               BoardMember.user_id := User.id user;
               BoardMember.role := role |}]));;
         commit);;
      mret success
  end.

Definition remove_board_member (current_user id user_id : Z) : View Response :=
  board ← get_or_404 boards TrelloBoard.id id;
  owner ← query (λ db, is_owner db board current_user);
  if negb owner then return_ permission_denied else
  write (set_board_members
           (filter (λ r, ¬ (BoardMember.board_id r = TrelloBoard.id board
                            ∧ BoardMember.user_id r = user_id))));;
  commit;;
  mret success.

Arguments delete_checklist_rows : simpl never.
Arguments delete_card_rows : simpl never.
Arguments delete_list_rows : simpl never.
Arguments delete_board_rows : simpl never.

(** * Vocabulary of the properties *)

(** [user] is the creator of the board. *)
Definition is_creator (board : TrelloBoard.t) (user : Z) : Prop :=
  TrelloBoard.created_by board = Some user.

(** [user] holds a row of [board_members] for the board. *)
Definition explicit_member (db : DB) (board : TrelloBoard.t) (user : Z) : Prop :=
  ∃ row, row ∈ board_members db
         ∧ BoardMember.board_id row = TrelloBoard.id board
         ∧ BoardMember.user_id row = user.

(** [user] is the key of a row of the users table. *)
Definition known_user (db : DB) (user : Z) : Prop :=
  user ∈ (User.id <$> users db).

(** Every [board_members] row that [user] holds on the board carries the
    role viewer. *)
Definition viewer_only (db : DB) (board : TrelloBoard.t) (user : Z) : Prop :=
  ∀ row, row ∈ board_members db →
         BoardMember.board_id row = TrelloBoard.id board →
         BoardMember.user_id row = user →
         BoardMember.role row = Some "viewer".


(** There is room above the positions of [siblings]: the integer after
    each of them is storable. *)
Definition room_above (siblings : list (option Z)) : Prop :=
  ∀ q, Some q ∈ siblings → storable (q + 1) = true.

(** The driver can bind the value: a NULL, or a storable integer. *)
Definition storable_value (value : option Z) : bool :=
  match value with
  | Some n => storable n
  | None => true
  end.

(** The driver can bind the integers of a move request: the key of the
    target list and the position, where the request carries them. *)
Definition storable_move (data : MoveData) : bool :=
  storable_value (data_list_id data)
  && match data_position data with
     | Some position => storable_value position
     | None => true
     end.

(** The completion fields of a checklist item agree: a complete item has
    both [completed_by] and [completed_at], an incomplete one has neither. *)
Definition completion_consistent (item : TrelloChecklistItem.t) : Prop :=
  if TrelloChecklistItem.is_complete item
  then is_Some (TrelloChecklistItem.completed_by item)
       ∧ is_Some (TrelloChecklistItem.completed_at item)
  else TrelloChecklistItem.completed_by item = None
       ∧ TrelloChecklistItem.completed_at item = None.

(** The foreign keys into [trello_boards] hold: labels, lists and activity
    entries belong to boards of the store. *)
Definition foreign_keys_hold (db : DB) : Prop :=
  (∀ l, l ∈ labels db → TrelloLabel.board_id l ∈ (TrelloBoard.id <$> boards db))
  ∧ (∀ l, l ∈ lists db → TrelloList.board_id l ∈ (TrelloBoard.id <$> boards db))
  ∧ (∀ a, a ∈ activities db →
          TrelloActivity.board_id a ∈ (TrelloBoard.id <$> boards db)).

(** The rows of a table after a run of [add]s, one per element of [xs]:
    each new row takes the key that is free when it is added. *)
Definition add_all {A B} (key : A → Z) (row : B → Z → A) (xs : list B)
    (rows : list A) : list A :=
  foldl (λ rows x, rows ++ [row x (Sql.next_id (key <$> rows))]) rows xs.

(** A response that turns the input down, as [add_comment] does for a
    comment without content. *)
Definition validation_error (r : Response) : Prop :=
  match r with
  | jsonify _ 400 => True
  | _ => False
  end.

(** The request is turned down for its input and writes nothing. *)
Definition rejected_before_mutation (view : View Response) (db : DB) : Prop :=
  validation_error (serve view db).1 ∧ (serve view db).2 = db.

(** A small store used to run the statements below on concrete rows: board 1
    is private and was created by user 1, with user 2 a viewer, user 3 a
    member and user 4 an admin; board 2 is public and was created by
    user 2. *)
Module Demo.
Definition private_board : TrelloBoard.t :=
  {| TrelloBoard.id := 1; TrelloBoard.name := "Rota";
     TrelloBoard.description := None; TrelloBoard.background_color := "slate";
     TrelloBoard.is_private := true; TrelloBoard.is_archived := false;
     TrelloBoard.created_by := Some 1 |}.

Definition public_board : TrelloBoard.t :=
  {| TrelloBoard.id := 2; TrelloBoard.name := "Notices";
     TrelloBoard.description := None; TrelloBoard.background_color := "slate";
     TrelloBoard.is_private := false; TrelloBoard.is_archived := false;
     TrelloBoard.created_by := Some 2 |}.

Definition list_of (id board_id : Z) (name : string) (position : option Z)
    : TrelloList.t :=
  {| TrelloList.id := id; TrelloList.board_id := board_id;
     TrelloList.name := name; TrelloList.position := position;
     TrelloList.is_archived := false |}.

Definition card_of (id list_id : Z) (title : string) (position : option Z)
    (due_date : option Z) (due_complete : bool) : TrelloCard.t :=
  {| TrelloCard.id := id; TrelloCard.list_id := list_id;
     TrelloCard.title := title; TrelloCard.description := None;
     TrelloCard.position := position; TrelloCard.due_date := due_date;
     TrelloCard.due_complete := due_complete;
     TrelloCard.is_archived := false; TrelloCard.cover_color := None;
     TrelloCard.created_by := Some 1 |}.

Definition db : DB :=
  {| users := [ {| User.id := 1; User.name := "Ann" |};
                {| User.id := 2; User.name := "Bo" |};
                {| User.id := 3; User.name := "Cy" |};
                {| User.id := 4; User.name := "Di" |} ];
     board_members :=
       [ {| BoardMember.board_id := 1; BoardMember.user_id := 2;
            BoardMember.role := Some "viewer" |};
         {| BoardMember.board_id := 1; BoardMember.user_id := 3;
            BoardMember.role := Some "member" |};
      {| BoardMember.board_id := 1; BoardMember.user_id := 4;
         BoardMember.role := Some "admin" |} ];
     boards := [private_board; public_board];
     lists := [ list_of 1 1 "To Do" (Some 0);
                list_of 2 1 "Done" (Some 4);
                list_of 3 2 "Inbox" (Some 0) ];
     cards := [ card_of 1 1 "Write rota" (Some 1) (Some 100) false;
                card_of 2 1 "Print rota" (Some 7) None false ];
     labels := [];
     comments := [ {| TrelloComment.id := 1; TrelloComment.card_id := 1;
                      TrelloComment.user_id := 3;
                      TrelloComment.content := "Draft attached" |} ];
     checklists := [ {| TrelloChecklist.id := 1; TrelloChecklist.card_id := 1;
                        TrelloChecklist.name := "Checklist";
                        TrelloChecklist.position := 0 |} ];
     checklist_items :=
       [ {| TrelloChecklistItem.id := 1;
            TrelloChecklistItem.checklist_id := 1;
            TrelloChecklistItem.content := "Ask for leave dates";
            TrelloChecklistItem.is_complete := false;
            TrelloChecklistItem.position := 0;
            TrelloChecklistItem.completed_by := None;
            TrelloChecklistItem.completed_at := None |} ];
     activities := [] |}.
End Demo.

(** Unfolds the session monad under [serve]. *)
Ltac run_view :=
  unfold serve, get_or_404, related, check_board_access, log_activity, add,
    query, write, commit, bind_param, return_, mbind, view_bind, mret,
    view_ret;
  simpl.

(** ** The blueprint as a transition system *)

(** A request to one of the routes that write, with what it carries. *)
Inductive Request :=
| CreateBoard (method : Method) (form : BoardForm)
| EditBoard (id : Z) (method : Method) (form : BoardForm)
| ArchiveBoard (id : Z)
| DeleteBoard (id : Z)
| CreateList (board_id : Z) (name : option string) (xhr : bool)
| RenameList (id : Z) (name : option string)
| ArchiveList (id : Z)
| MoveList (id : Z) (position : option (option Z))
| CreateCard (list_id : Z) (title : option string) (xhr : bool)
| MoveCard (id : Z) (data : MoveData)
| ArchiveCard (id : Z)
| DeleteCard (id : Z)
| AddComment (card_id : Z) (body : CommentBody)
| DeleteComment (id : Z)
| AddChecklist (card_id : Z) (name : option (option string))
| AddChecklistItem (id : Z) (content : option (option string))
| ToggleChecklistItem (id : Z)
| DeleteChecklist (id : Z)
| AddBoardMember (id : Z) (user_id : option Z) (role : option (option string))
| RemoveBoardMember (id user_id : Z).

(** The store after the request of [current_user] at time [utcnow]. *)
Definition handle (current_user : User.t) (utcnow : Z) (req : Request) (db : DB) : DB :=
  let u := User.id current_user in
  match req with
  | CreateBoard method form => (serve (create_board u method form) db).2
  | EditBoard id method form => (serve (edit_board u id method form) db).2
  | ArchiveBoard id => (serve_reply (archive_board u id) db).2
  | DeleteBoard id => (serve_reply (delete_board u id) db).2
  | CreateList board_id name xhr => (serve (create_list u board_id name xhr) db).2
  | RenameList id name => (serve (rename_list u id name) db).2
  | ArchiveList id => (serve (archive_list u id) db).2
  | MoveList id position => (serve (move_list u id position) db).2
  | CreateCard list_id title xhr => (serve (create_card u list_id title xhr) db).2
  | MoveCard id data => (serve (move_card u id data) db).2
  | ArchiveCard id => (serve (archive_card u id) db).2
  | DeleteCard id => (serve (delete_card u id) db).2
  | AddComment card_id body =>
      (serve (add_comment current_user card_id body) db).2
  | DeleteComment id => (serve (delete_comment u id) db).2
  | AddChecklist card_id name => (serve (add_checklist u card_id name) db).2
  | AddChecklistItem id content => (serve (add_checklist_item u id content) db).2
  | ToggleChecklistItem id => (serve (toggle_checklist_item u utcnow id) db).2
  | DeleteChecklist id => (serve (delete_checklist u id) db).2
  | AddBoardMember id user_id role =>
      (serve (add_board_member u id user_id role) db).2
  | RemoveBoardMember id user_id =>
      (serve (remove_board_member u id user_id) db).2
  end.

(** The store after a sequence of requests, each with its user and time. *)
Definition handle_all (trace : list (User.t * Z * Request)) (db : DB) : DB :=
  foldl (λ db '(current_user, utcnow, req), handle current_user utcnow req db)
        db trace.

(** The references between the tables of the boards point at rows of the
    store: a member row at its board and its user, a list, a label and an
    activity entry at its board, a card at its list, a comment and a
    checklist at its card, an item at its checklist. *)
Definition references_hold (db : DB) : Prop :=
  (∀ r, r ∈ board_members db →
        BoardMember.board_id r ∈ (TrelloBoard.id <$> boards db))
  ∧ (∀ l, l ∈ lists db → TrelloList.board_id l ∈ (TrelloBoard.id <$> boards db))
  ∧ (∀ l, l ∈ labels db → TrelloLabel.board_id l ∈ (TrelloBoard.id <$> boards db))
  ∧ (∀ a, a ∈ activities db →
          TrelloActivity.board_id a ∈ (TrelloBoard.id <$> boards db))
  ∧ (∀ c, c ∈ cards db → TrelloCard.list_id c ∈ (TrelloList.id <$> lists db))
  ∧ (∀ c, c ∈ comments db → TrelloComment.card_id c ∈ (TrelloCard.id <$> cards db))
  ∧ (∀ c, c ∈ checklists db →
          TrelloChecklist.card_id c ∈ (TrelloCard.id <$> cards db))
  ∧ (∀ i, i ∈ checklist_items db →
          TrelloChecklistItem.checklist_id i
          ∈ (TrelloChecklist.id <$> checklists db))
  ∧ (∀ r, r ∈ board_members db →
          BoardMember.user_id r ∈ (User.id <$> users db)).

(** No two rows of a table share their primary key. *)
Definition keys_unique (db : DB) : Prop :=
  NoDup (TrelloBoard.id <$> boards db)
  ∧ NoDup (TrelloList.id <$> lists db)
  ∧ NoDup (TrelloCard.id <$> cards db)
  ∧ NoDup (TrelloLabel.id <$> labels db)
  ∧ NoDup (TrelloComment.id <$> comments db)
  ∧ NoDup (TrelloChecklist.id <$> checklists db)
  ∧ NoDup (TrelloChecklistItem.id <$> checklist_items db)
  ∧ NoDup (TrelloActivity.id <$> activities db)
  ∧ NoDup ((λ r, (BoardMember.board_id r, BoardMember.user_id r))
             <$> board_members db).

(** The items of the checklists of a card, checklist after checklist. *)
Definition card_items (db : DB) (card : TrelloCard.t) : list TrelloChecklistItem.t :=
  checklist ← filter (λ c, TrelloChecklist.card_id c = TrelloCard.id card)
                     (checklists db);
  filter (λ i, TrelloChecklistItem.checklist_id i = TrelloChecklist.id checklist)
         (checklist_items db).

(** Unfolds the session monad under [serve_reply]. *)
Ltac run_reply :=
  unfold serve_reply, get_or_404, related, check_board_access, log_activity,
    add, query, write, commit, bind_param, return_, mbind, view_bind, mret,
    view_ret;
  simpl.

(** Splits on the rows that the queries of a view find. *)
Ltac lookups :=
  repeat match goal with
         | |- context [Sql.get ?key ?id ?rows] =>
             let E := fresh "Hget" in
             destruct (Sql.get key id rows) eqn:E; simpl; try reflexivity
         end.

(** Closes the case of a view that turns the user down: [Hno] says that
    the user may edit no board, [get_some] and [not_owner] are the lemmas
    on [Sql.get] and on [is_owner] that it needs. *)
Ltac denied Hno get_some not_owner :=
  lookups;
  match goal with
  | H : Sql.get TrelloBoard.id _ (boards _) = Some ?b |- _ =>
      apply get_some in H as [_ H];
      try rewrite (not_owner _ _ _ (Hno _ H));
      try rewrite (Hno _ H)
  end;
  simpl; try reflexivity.

(** The store of the examples cut down to board 1: user 2 is a viewer of
    the only board. *)
Definition viewer_store : DB :=
  set_boards (λ _, [Demo.private_board])
    (set_lists (filter (λ l, TrelloList.board_id l = 1)) Demo.db).

(** Runs a view to the stores it can leave: splits on the rows found and
    on the tests of the view. *)
Ltac outcomes :=
  lookups; repeat (case_match; simplify_eq/=; try done).

(** Reads the tables of a store that is written as a chain of writers. *)
Ltac tables :=
  cbn [users board_members boards lists cards labels comments checklists
       checklist_items activities
       set_board_members set_boards set_lists set_cards set_labels
       set_comments set_checklists set_checklist_items set_activities
       fst snd] in *.

(** Turns what the queries found into memberships of keys; [keys] is the
    lemma that says so. *)
Ltac found keys :=
  repeat match goal with
         | H : Sql.get _ _ _ = Some _ |- _ => apply keys in H as [? ?]
         end.

(** * Properties *)

(** ** Identity and role resolution *)

Section Permissions.
Variable db : DB.
Variable board : TrelloBoard.t.

Lemma members_ids user :
  user ∈ (User.id <$> members db board)
  ↔ known_user db user ∧ explicit_member db board user.
Proof.
  unfold members, known_user, explicit_member.
  rewrite !list_elem_of_fmap. split.
  - intros (u & -> & Hu). apply list_elem_of_filter in Hu as [Hrow Hu].
    apply list_elem_of_fmap in Hrow as (row & Hid & Hrow).
    apply list_elem_of_filter in Hrow as [Hb Hrow].
    split; [by exists u | by exists row].
  - intros [(u & -> & Hu) (row & Hrow & Hb & Hid)].
    exists u. split; [done |]. apply list_elem_of_filter. split; [| done].
    apply list_elem_of_fmap. exists row. split; [done |].
    by apply list_elem_of_filter.
Qed.

Lemma get_member_role_row user r :
  get_member_role db board user = Some r →
  ∃ row, row ∈ board_members db
         ∧ BoardMember.board_id row = TrelloBoard.id board
         ∧ BoardMember.user_id row = user
         ∧ BoardMember.role row = Some r.
Proof.
  unfold get_member_role. intros H.
  apply bind_Some in H as (row & Hhead & Hrole).
  apply head_Some_elem_of, list_elem_of_filter in Hhead as [[Hb Hu] Hrow].
  by exists row.
Qed.

Lemma can_edit_true user :
  can_edit db board user = true ↔
  is_creator board user
  ∨ ∃ r, get_member_role db board user = Some r
         ∧ r ∈ ["owner"; "admin"; "member"].
Proof.
  unfold can_edit, is_creator. rewrite orb_true_iff, bool_decide_eq_true.
  destruct (get_member_role db board user) as [r |].
  - rewrite bool_decide_eq_true. split.
    + intros [H | H]; [right; by exists r | by left].
    + intros [H | (r' & [= <-] & H)]; [by right | by left].
  - split.
    + intros [H | H]; [done | by left].
    + intros [H | (r' & [=] & _)]. by right.
Qed.

Lemma is_owner_true user :
  is_owner db board user = true ↔
  is_creator board user ∨ get_member_role db board user = Some "owner".
Proof.
  unfold is_owner, is_creator.
  by rewrite orb_true_iff, !bool_decide_eq_true.
Qed.
End Permissions.

(** C1. [can_view] characterises view permission.  On a public board it is
    true for every user, member or not.  On a private board it is true for a
    user exactly when the user created the board or is among the members of
    the board; for a user of the system, being among the members is holding
    a [board_members] row for the board. *)
Theorem can_view_characterization (db : DB) (board : TrelloBoard.t) :
  (∀ user, TrelloBoard.is_private board = false →
           can_view db board user = true)
  ∧ (∀ user, TrelloBoard.is_private board = true →
             (can_view db board user = true ↔
              is_creator board user
              ∨ user ∈ (User.id <$> members db board)))
  ∧ (∀ user, known_user db user →
             TrelloBoard.is_private board = true →
             (can_view db board user = true ↔
              is_creator board user ∨ explicit_member db board user)).
Proof.
  split; [| split]; intros user.
  - intros Hpub. unfold can_view. by rewrite Hpub.
  - intros Hpriv. unfold can_view. rewrite Hpriv. simpl.
    rewrite orb_true_iff, !bool_decide_eq_true. unfold is_creator. tauto.
  - intros Hknown Hpriv. unfold can_view. rewrite Hpriv. simpl.
    rewrite orb_true_iff, !bool_decide_eq_true, members_ids.
    unfold is_creator. tauto.
Qed.

Lemma can_view_characterization_witness :
  can_view Demo.db Demo.public_board 4 = true
  ∧ known_user Demo.db 2
  ∧ TrelloBoard.is_private Demo.private_board = true
  ∧ (can_view Demo.db Demo.private_board 2 = true ↔
     is_creator Demo.private_board 2 ∨ explicit_member Demo.db Demo.private_board 2).
Proof.
  assert (Hknown : known_user Demo.db 2)
    by (unfold known_user; apply (bool_decide_unpack _); vm_compute; exact I).
  split; [| split; [| split]].
  - apply (proj1 (can_view_characterization Demo.db Demo.public_board) 4).
    reflexivity.
  - exact Hknown.
  - reflexivity.
  - apply (proj2 (proj2 (can_view_characterization Demo.db Demo.private_board)) 2).
    + exact Hknown.
    + reflexivity.
Defined.

(** C2. [can_edit] is true exactly when the user created the board or the
    role resolved by [get_member_role] is owner, admin or member; so a user
    who did not create the board and whose membership rows all say viewer
    cannot edit. *)
Theorem can_edit_characterization (db : DB) (board : TrelloBoard.t) (user : Z) :
  (can_edit db board user = true ↔
   is_creator board user
   ∨ ∃ r, get_member_role db board user = Some r
          ∧ r ∈ ["owner"; "admin"; "member"])
  ∧ (¬ is_creator board user →
     viewer_only db board user →
     can_edit db board user = false).
Proof.
  split; [apply can_edit_true |].
  intros Hcreator Hviewer. apply not_true_is_false. intros Hedit.
  apply can_edit_true in Hedit as [H | (r & Hrole & Hin)]; [done |].
  apply get_member_role_row in Hrole as (row & Hrow & Hb & Hu & Hr).
  rewrite (Hviewer row Hrow Hb Hu) in Hr. injection Hr as <-.
  apply (bool_decide_pack _) in Hin. exact Hin.
Qed.

Lemma can_edit_characterization_witness :
  ¬ is_creator Demo.private_board 2
  ∧ viewer_only Demo.db Demo.private_board 2
  ∧ explicit_member Demo.db Demo.private_board 2
  ∧ can_edit Demo.db Demo.private_board 2 = false.
Proof.
  assert (Hcreator : ¬ is_creator Demo.private_board 2) by (intros [=]).
  assert (Hviewer : viewer_only Demo.db Demo.private_board 2).
  { intros row Hrow Hb Hu. simpl in Hrow.
    apply elem_of_cons in Hrow as [-> | Hrow]; [reflexivity |].
    apply elem_of_cons in Hrow as [-> | Hrow]; [discriminate Hu |].
    apply list_elem_of_singleton in Hrow as ->. discriminate Hu. }
  split; [exact Hcreator | split; [exact Hviewer | split]].
  - eexists. split; [apply list_elem_of_here | split; reflexivity].
  - exact (proj2 (can_edit_characterization Demo.db Demo.private_board 2)
                 Hcreator Hviewer).
Defined.

(** C10. Edit permission implies view permission: a user of the system who
    can edit a board can view it.  An editing role comes from a
    [board_members] row, which makes the user a member, and the creator
    passes both checks. *)
Theorem can_edit_implies_can_view (db : DB) (board : TrelloBoard.t) (user : Z) :
  known_user db user →
  can_edit db board user = true →
  can_view db board user = true.
Proof.
  intros Hknown Hedit. unfold can_view.
  destruct (TrelloBoard.is_private board); [simpl | done].
  apply orb_true_iff. rewrite !bool_decide_eq_true.
  apply can_edit_true in Hedit as [H | (r & Hrole & _)]; [by right | left].
  apply members_ids. split; [done |].
  apply get_member_role_row in Hrole as (row & Hrow & Hb & Hu & _).
  by exists row.
Qed.

Lemma can_edit_implies_can_view_witness :
  known_user Demo.db 3
  ∧ can_edit Demo.db Demo.private_board 3 = true
  ∧ can_view Demo.db Demo.private_board 3 = true.
Proof.
  assert (Hknown : known_user Demo.db 3)
    by (unfold known_user; apply (bool_decide_unpack _); vm_compute; exact I).
  assert (Hedit : can_edit Demo.db Demo.private_board 3 = true)
    by (vm_compute; reflexivity).
  split; [exact Hknown | split; [exact Hedit |]].
  exact (can_edit_implies_can_view Demo.db Demo.private_board 3 Hknown Hedit).
Defined.

(** ** Derived card status *)

(** C9. [is_overdue] is false whenever [due_complete] is true, however old
    the due date; it is true exactly when a due date is present, lies before
    the current time, and [due_complete] is false. *)
Theorem is_overdue_characterization (utcnow : Z) (card : TrelloCard.t) :
  (TrelloCard.due_complete card = true → is_overdue utcnow card = false)
  ∧ (is_overdue utcnow card = true ↔
     ∃ due, TrelloCard.due_date card = Some due
            ∧ due < utcnow
            ∧ TrelloCard.due_complete card = false).
Proof.
  unfold is_overdue. split.
  - intros ->. by destruct (TrelloCard.due_date card).
  - destruct (TrelloCard.due_date card) as [due |].
    + destruct (TrelloCard.due_complete card).
      * split; [done | by intros (? & _ & _ & ?)].
      * rewrite bool_decide_eq_true. split.
        -- intros H. exists due. split; [done | split; [lia | done]].
        -- intros (d & [= <-] & H & _). lia.
    + split; [done | by intros (? & ? & _)].
Qed.

Lemma is_overdue_characterization_witness :
  TrelloCard.due_complete (Demo.card_of 9 1 "Closed" None (Some 100) true) = true
  ∧ is_overdue 500 (Demo.card_of 9 1 "Closed" None (Some 100) true) = false.
Proof.
  split; [reflexivity |].
  apply (proj1 (is_overdue_characterization
                  500 (Demo.card_of 9 1 "Closed" None (Some 100) true))).
  reflexivity.
Defined.

(** ** Facts about the query helpers *)

Section SqlFacts.
Context {A : Type} (key : A → Z).

Lemma get_Some id rows r :
  Sql.get key id rows = Some r → key r = id ∧ r ∈ rows.
Proof.
  unfold Sql.get. intros H.
  by apply head_Some_elem_of, list_elem_of_filter in H.
Qed.

Lemma get_update id f rows :
  (∀ r, key (f r) = key r) →
  Sql.get key id (Sql.update key id f rows) = f <$> Sql.get key id rows.
Proof.
  intros Hf. unfold Sql.get, Sql.update.
  induction rows as [| r rows IH]; [done |].
  rewrite fmap_cons, !filter_cons.
  destruct (decide (key r = id)) as [Hr | Hr].
  - rewrite Hf. by rewrite decide_True.
  - by rewrite decide_False.
Qed.

Lemma get_delete id rows : Sql.get key id (Sql.delete key id rows) = None.
Proof.
  unfold Sql.get, Sql.delete. apply head_None.
  induction rows as [| r rows IH]; [done |].
  rewrite filter_cons. destruct (decide (key r ≠ id)) as [Hr | Hr]; [| done].
  by rewrite filter_cons_False.
Qed.

Lemma update_elem_of id f rows r' :
  r' ∈ Sql.update key id f rows →
  r' ∈ rows ∨ ∃ r, r ∈ rows ∧ key r = id ∧ r' = f r.
Proof.
  unfold Sql.update. intros H.
  apply list_elem_of_fmap in H as (r & -> & Hr).
  destruct (decide (key r = id)); [right; by exists r | by left].
Qed.
End SqlFacts.

Lemma next_id_above keys k : k ∈ keys → k < Sql.next_id keys.
Proof.
  unfold Sql.next_id. induction keys as [| k' keys IH]; intros H.
  - by apply elem_of_nil in H.
  - apply elem_of_cons in H as [-> | H]; simpl; [lia |].
    specialize (IH H). lia.
Qed.

Lemma next_id_fresh keys : Sql.next_id keys ∉ keys.
Proof. intros H. apply next_id_above in H. lia. Qed.

Lemma or_zero_Some z : or_zero (Some z) = z.
Proof. unfold or_zero. by destruct (decide (z = 0)) as [-> |]. Qed.


(** ** Ordering *)


Lemma max_elem_of column m : Sql.max column = Some m → Some m ∈ column.
Proof.
  revert m. induction column as [| [a |] column IH]; intros m; simpl.
  - done.
  - destruct (Sql.max column) as [b |] eqn:Hmax; intros [= <-].
    + destruct (Z.max_spec a b) as [[_ ->] | [_ ->]].
      * right. by apply IH.
      * left.
    + left.
  - intros Hm. right. by apply IH.
Qed.

Lemma room_above_storable siblings :
  room_above siblings → storable (or_zero (Sql.max siblings) + 1) = true.
Proof.
  intros Hroom. destruct (Sql.max siblings) as [m |] eqn:Hmax.
  - rewrite or_zero_Some. by apply Hroom, max_elem_of.
  - reflexivity.
Qed.



Lemma create_card_allowed db u lid title xhr lst board :
  Sql.get TrelloList.id lid (lists db) = Some lst →
  Sql.get TrelloBoard.id (TrelloList.board_id lst) (boards db) = Some board →
  can_edit db board u = true →
  storable (or_zero (Sql.max (TrelloCard.position <$>
              filter (λ c, TrelloCard.list_id c = lid) (cards db))) + 1) = true →
  ∃ r card,
    serve (create_card u lid title xhr) db
    = (r, set_activities
            (λ rows, rows ++
               [{| TrelloActivity.id := Sql.next_id (TrelloActivity.id <$> activities db);
                   TrelloActivity.board_id := TrelloBoard.id board;
                   TrelloActivity.user_id := Some u;
                   TrelloActivity.action := "created_card";
                   TrelloActivity.target_type := Some "card";
                   TrelloActivity.target_id := None;
                   TrelloActivity.details := Some [("title", default "New Card" title)] |}])
            (set_cards (λ rows, rows ++ [card]) db))
    ∧ card = {| TrelloCard.id := Sql.next_id (TrelloCard.id <$> cards db);
                TrelloCard.list_id := lid;
                TrelloCard.title := default "New Card" title;
                TrelloCard.description := None;
                TrelloCard.position :=
                  Some (or_zero (Sql.max (TrelloCard.position <$>
                          filter (λ c, TrelloCard.list_id c = lid) (cards db))) + 1);
                TrelloCard.due_date := None;
                TrelloCard.due_complete := false;
                TrelloCard.is_archived := false;
                TrelloCard.cover_color := None;
                TrelloCard.created_by := Some u |}
    ∧ (r = jsonify [("id", JInt (TrelloCard.id card));
                    ("title", JStr (TrelloCard.title card));
                    ("list_id", JInt lid)] 200
       ∨ r = redirect "trello.view_board" (TrelloBoard.id board)).
Proof.
  intros Hl Hb He Hp. unfold create_card. run_view.
  rewrite Hl. simpl. rewrite Hb. simpl. rewrite He. simpl. rewrite Hp.
  destruct xhr; simpl; eexists _, _; (split; [reflexivity | split; [reflexivity |]]);
    simpl; auto.
Qed.




(** The positions the two creations above receive: 5 in board 1, whose
    lists stand at 0 and 4, and 1 in list 2, which has no card. *)
Example append_at_end_positions :
  TrelloList.position <$> lists (serve (create_list 3 1 (Some "Review") true) Demo.db).2
  = [Some 0; Some 4; Some 0; Some 5]
  ∧ TrelloCard.position <$>
      cards (serve (create_card 1 2 (Some "Archive rota") false) Demo.db).2
    = [Some 1; Some 7; Some 1].
Proof. split; vm_compute; reflexivity. Qed.

(** A board whose last list stands at the largest storable position takes
    no further list: the request of its creator ends in the error of the
    driver and the lists are as they were. *)
Example append_at_end_full :
  let full :=
    set_lists (λ rows, rows ++ [Demo.list_of 9 1 "Last" (Some (2 ^ 63 - 1))])
              Demo.db in
  serve (create_list 1 1 (Some "Review") true) full
  = (unhandled "OverflowError", full).
Proof. vm_compute. reflexivity. Qed.

(** ** Card creation without a title *)

(** C3 does not hold as stated: user 1 posts the card form to list 1
    without a title; the request is answered with a redirect to the board
    and a card titled 'New Card' is stored. *)
Lemma create_card_missing_title_counterexample :
  ¬ rejected_before_mutation (create_card 1 1 None false) Demo.db
  ∧ (serve (create_card 1 1 None false) Demo.db).1 = redirect "trello.view_board" 1
  ∧ TrelloCard.title <$> cards (serve (create_card 1 1 None false) Demo.db).2
    = ["Write rota"; "Print rota"; "New Card"].
Proof.
  split; [| split; vm_compute; reflexivity].
  intros [Herr _]. vm_compute in Herr. exact Herr.
Qed.

(** C3, amended.  A card form without a title is not turned down: when the
    list exists, the user may edit its board and there is room above the
    positions of the cards of the list, one card titled 'New Card' is stored
    in the list, one created_card entry is logged for the board, and the
    answer is the new card or a redirect to the board. *)
Theorem create_card_default_title db u list_id xhr lst board :
  Sql.get TrelloList.id list_id (lists db) = Some lst →
  Sql.get TrelloBoard.id (TrelloList.board_id lst) (boards db) = Some board →
  can_edit db board u = true →
  room_above (TrelloCard.position <$>
                filter (λ c, TrelloCard.list_id c = list_id) (cards db)) →
  ∃ card entry,
    cards (serve (create_card u list_id None xhr) db).2 = cards db ++ [card]
    ∧ TrelloCard.title card = "New Card"
    ∧ TrelloCard.list_id card = list_id
    ∧ TrelloCard.created_by card = Some u
    ∧ activities (serve (create_card u list_id None xhr) db).2
      = activities db ++ [entry]
    ∧ TrelloActivity.action entry = "created_card"
    ∧ TrelloActivity.board_id entry = TrelloBoard.id board
    ∧ ((serve (create_card u list_id None xhr) db).1
       = jsonify [("id", JInt (TrelloCard.id card)); ("title", JStr "New Card");
                  ("list_id", JInt list_id)] 200
       ∨ (serve (create_card u list_id None xhr) db).1
         = redirect "trello.view_board" (TrelloBoard.id board)).
Proof.
  intros Hl Hb He Hroom.
  destruct (create_card_allowed db u list_id None xhr lst board Hl Hb He
              (room_above_storable _ Hroom))
    as (r & card & -> & -> & Hr).
  eexists _, _. simpl. repeat split; try reflexivity. exact Hr.
Qed.

Lemma create_card_default_title_witness :
  Sql.get TrelloList.id 1 (lists Demo.db) = Some (Demo.list_of 1 1 "To Do" (Some 0))
  ∧ Sql.get TrelloBoard.id 1 (boards Demo.db) = Some Demo.private_board
  ∧ can_edit Demo.db Demo.private_board 1 = true
  ∧ room_above (TrelloCard.position <$>
                  filter (λ c, TrelloCard.list_id c = 1) (cards Demo.db))
  ∧ ∃ card entry,
      cards (serve (create_card 1 1 None false) Demo.db).2 = cards Demo.db ++ [card]
      ∧ TrelloCard.title card = "New Card"
      ∧ TrelloCard.list_id card = 1
      ∧ TrelloCard.created_by card = Some 1
      ∧ activities (serve (create_card 1 1 None false) Demo.db).2
        = activities Demo.db ++ [entry]
      ∧ TrelloActivity.action entry = "created_card"
      ∧ TrelloActivity.board_id entry = TrelloBoard.id Demo.private_board
      ∧ ((serve (create_card 1 1 None false) Demo.db).1
         = jsonify [("id", JInt (TrelloCard.id card)); ("title", JStr "New Card");
                    ("list_id", JInt 1)] 200
         ∨ (serve (create_card 1 1 None false) Demo.db).1
           = redirect "trello.view_board" (TrelloBoard.id Demo.private_board)).
Proof.
  assert (Hroom : room_above (TrelloCard.position <$>
                    filter (λ c, TrelloCard.list_id c = 1) (cards Demo.db))).
  { intros q Hq. vm_compute in Hq.
    repeat (apply elem_of_cons in Hq as [[= ->] | Hq]; [reflexivity |]).
    by apply elem_of_nil in Hq. }
  split; [reflexivity | split; [reflexivity | split; [reflexivity |]]].
  split; [exact Hroom |].
  exact (create_card_default_title Demo.db 1 1 false
           (Demo.list_of 1 1 "To Do" (Some 0)) Demo.private_board
           eq_refl eq_refl eq_refl Hroom).
Defined.

(** ** Board creation *)

Lemma bind_next {A B} (m : View A) (k : A → View B) s a s' :
  m s = (Next a, s') → (m ≫= k) s = k a s'.
Proof. intros H. unfold mbind, view_bind. by rewrite H. Qed.

Lemma add_next {A} table set key (row : Z → A) s :
  add table set key row s
  = (Next (Sql.next_id (key <$> table (pending s))),
     {| stored := stored s;
        pending := set (λ rows, rows ++ [row (Sql.next_id (key <$> table (pending s)))])
                       (pending s) |}).
Proof. reflexivity. Qed.

Lemma for_each_add_labels board_id xs s :
  for_each xs (λ '(name, color),
    add labels set_labels TrelloLabel.id
        (λ id, {| TrelloLabel.id := id;
                  TrelloLabel.board_id := board_id;
                  TrelloLabel.name := name;
                  TrelloLabel.color := color |});;
    mret ()) s
  = (Next (),
     {| stored := stored s;
        pending :=
          set_labels
            (add_all TrelloLabel.id
               (λ '(name, color) id,
                  {| TrelloLabel.id := id;
                     TrelloLabel.board_id := board_id;
                     TrelloLabel.name := name;
                     TrelloLabel.color := color |}) xs)
            (pending s) |}).
Proof.
  revert s. induction xs as [| [name color] xs IH]; intros s.
  - destruct s as [st pd]. by destruct pd.
  - cbn [for_each]. erewrite bind_next by reflexivity. by rewrite IH.
Qed.

Lemma for_each_add_lists board_id xs s :
  for_each xs (λ '(i, name),
    add lists set_lists TrelloList.id
        (λ id, {| TrelloList.id := id;
                  TrelloList.board_id := board_id;
                  TrelloList.name := name;
                  TrelloList.position := Some i;
                  TrelloList.is_archived := false |});;
    mret ()) s
  = (Next (),
     {| stored := stored s;
        pending :=
          set_lists
            (add_all TrelloList.id
               (λ '(i, name) id,
                  {| TrelloList.id := id;
                     TrelloList.board_id := board_id;
                     TrelloList.name := name;
                     TrelloList.position := Some i;
                     TrelloList.is_archived := false |}) xs)
            (pending s) |}).
Proof.
  revert s. induction xs as [| [i name] xs IH]; intros s.
  - destruct s as [st pd]. by destruct pd.
  - cbn [for_each]. erewrite bind_next by reflexivity. by rewrite IH.
Qed.

Lemma filter_fresh {A} (fk : A → Z) (rows : list A) (keys : list Z) :
  (∀ r, r ∈ rows → fk r ∈ keys) →
  filter (λ r, fk r = Sql.next_id keys) rows = [].
Proof.
  intros Hfk. induction rows as [| r rows IH]; [done |].
  rewrite filter_cons_False.
  - apply IH. intros r' Hr'. apply Hfk. by right.
  - intros Hr. apply (next_id_fresh keys). rewrite <- Hr. apply Hfk. by left.
Qed.

(** What a run of [add]s leaves under a filter, when the filter keeps every
    new row. *)
Lemma filter_add_all {A B C} (key : A → Z) (row : B → Z → A)
    (P : A → Prop) `{!∀ r, Decision (P r)} (g : A → C) (h : B → C) xs rows :
  (∀ x id, P (row x id)) →
  (∀ x id, g (row x id) = h x) →
  g <$> filter P (add_all key row xs rows)
  = (g <$> filter P rows) ++ (h <$> xs).
Proof.
  intros HP Hg. unfold add_all. revert rows.
  induction xs as [| x xs IH]; intros rows; simpl.
  - by rewrite app_nil_r.
  - rewrite IH, list.filter_app, filter_cons_True, filter_nil by apply HP.
    rewrite fmap_app. simpl. rewrite Hg. by rewrite <- app_assoc.
Qed.

Lemma create_board_posted db u form name :
  form_name form = Some name →
  ∃ board db',
    serve (create_board u POST form) db
    = (redirect "trello.view_board" (TrelloBoard.id board), db')
    ∧ TrelloBoard.id board = Sql.next_id (TrelloBoard.id <$> boards db)
    ∧ TrelloBoard.created_by board = Some u
    ∧ boards db' = boards db ++ [board]
    ∧ labels db'
      = add_all TrelloLabel.id
          (λ '(name, color) id,
             {| TrelloLabel.id := id;
                TrelloLabel.board_id := TrelloBoard.id board;
                TrelloLabel.name := name;
                TrelloLabel.color := color |})
          default_labels (labels db)
    ∧ lists db'
      = add_all TrelloList.id
          (λ '(i, name) id,
             {| TrelloList.id := id;
                TrelloList.board_id := TrelloBoard.id board;
                TrelloList.name := name;
                TrelloList.position := Some i;
                TrelloList.is_archived := false |})
          (enumerate default_lists) (lists db)
    ∧ activities db'
      = activities db ++
        [{| TrelloActivity.id := Sql.next_id (TrelloActivity.id <$> activities db);
            TrelloActivity.board_id := TrelloBoard.id board;
            TrelloActivity.user_id := Some u;
            TrelloActivity.action := "created_board";
            TrelloActivity.target_type := Some "board";
            TrelloActivity.target_id := Some (TrelloBoard.id board);
            TrelloActivity.details := None |}].
Proof.
  intros Hname. unfold serve, create_board. rewrite Hname.
  rewrite (bind_next _ _ _ _ _ (add_next _ _ _ _ _)). cbn [stored pending].
  erewrite bind_next by apply for_each_add_labels. cbn [stored pending].
  erewrite bind_next by apply for_each_add_lists. cbn [stored pending].
  erewrite bind_next by reflexivity.
  erewrite bind_next by reflexivity.
  eexists (TrelloBoard.Build_t (Sql.next_id (TrelloBoard.id <$> boards db))
             _ _ _ _ _ _), _.
  split; [reflexivity |]. repeat split.
Qed.

Lemma create_board_without_name db u form :
  form_name form = None →
  serve (create_board u POST form) db = (unhandled "IntegrityError", db).
Proof. intros H. unfold create_board. rewrite H. reflexivity. Qed.

(** C5. Posting the board form with a name stores, in one commit, the new
    board with exactly six labels, exactly three lists at positions 0, 1
    and 2, and exactly one activity entry, whose action is created_board;
    the labels, lists and entry counted are those that carry the key of the
    new board.  When the database refuses the board nothing is stored. *)
Theorem create_board_seeds db u form name :
  form_name form = Some name →
  foreign_keys_hold db →
  ∃ board,
    (serve (create_board u POST form) db).1
    = redirect "trello.view_board" (TrelloBoard.id board)
    ∧ boards (serve (create_board u POST form) db).2 = boards db ++ [board]
    ∧ (TrelloBoard.id board ∉ TrelloBoard.id <$> boards db)
    ∧ TrelloBoard.created_by board = Some u
    ∧ length (filter (λ l, TrelloLabel.board_id l = TrelloBoard.id board)
                     (labels (serve (create_board u POST form) db).2)) = 6%nat
    ∧ length (filter (λ l, TrelloList.board_id l = TrelloBoard.id board)
                     (lists (serve (create_board u POST form) db).2)) = 3%nat
    ∧ (TrelloList.position <$>
         filter (λ l, TrelloList.board_id l = TrelloBoard.id board)
                (lists (serve (create_board u POST form) db).2))
      = [Some 0; Some 1; Some 2]
    ∧ (TrelloActivity.action <$>
         filter (λ a, TrelloActivity.board_id a = TrelloBoard.id board)
                (activities (serve (create_board u POST form) db).2))
      = ["created_board"]
    ∧ (∀ form', form_name form' = None →
                (serve (create_board u POST form') db).2 = db).
Proof.
  intros Hname (Hlabels & Hlists & Hactivities).
  destruct (create_board_posted db u form name Hname)
    as (board & db' & Hrun & Hid & Hby & Hb & Hl & Hls & Ha).
  exists board. rewrite Hrun. cbn [fst snd]. rewrite Hb, Hl, Hls, Ha.
  assert (Hpositions :
    (TrelloList.position <$>
       filter (λ l, TrelloList.board_id l = TrelloBoard.id board)
         (add_all TrelloList.id
            (λ '(i, name) id,
               {| TrelloList.id := id;
                  TrelloList.board_id := TrelloBoard.id board;
                  TrelloList.name := name;
                  TrelloList.position := Some i;
                  TrelloList.is_archived := false |})
            (enumerate default_lists) (lists db)))
    = [Some 0; Some 1; Some 2]).
  { rewrite (filter_add_all _ _ _ TrelloList.position (λ x, Some x.1))
      by (by intros [] ?).
    rewrite Hid. by rewrite (filter_fresh _ _ _ Hlists). }
  repeat split.
  - rewrite Hid. apply next_id_fresh.
  - exact Hby.
  - rewrite <- (length_fmap TrelloLabel.color).
    rewrite (filter_add_all _ _ _ TrelloLabel.color snd) by (by intros [] ?).
    rewrite Hid. by rewrite (filter_fresh _ _ _ Hlabels).
  - rewrite <- (length_fmap TrelloList.position). by rewrite Hpositions.
  - exact Hpositions.
  - rewrite list.filter_app, filter_cons_True, filter_nil by reflexivity.
    rewrite Hid. by rewrite (filter_fresh _ _ _ Hactivities).
  - intros form' Hnone. by rewrite create_board_without_name.
Qed.

Lemma create_board_seeds_witness :
  form_name {| form_name := Some "Holidays"; form_description := None;
               form_background_color := None; form_is_private := Some "on" |}
  = Some "Holidays"
  ∧ foreign_keys_hold Demo.db
  ∧ ∃ board,
      (serve (create_board 3 POST
                {| form_name := Some "Holidays"; form_description := None;
                   form_background_color := None;
                   form_is_private := Some "on" |}) Demo.db).1
      = redirect "trello.view_board" (TrelloBoard.id board)
      ∧ TrelloBoard.created_by board = Some 3.
Proof.
  assert (Hkeys : foreign_keys_hold Demo.db).
  { repeat split; intros r Hr; simpl in Hr;
      repeat (apply elem_of_cons in Hr as [-> | Hr];
              [apply (bool_decide_unpack _); vm_compute; exact I |]);
      by apply elem_of_nil in Hr. }
  split; [reflexivity | split; [exact Hkeys |]].
  destruct (create_board_seeds Demo.db 3
              {| form_name := Some "Holidays"; form_description := None;
                 form_background_color := None; form_is_private := Some "on" |}
              "Holidays" eq_refl Hkeys)
    as (board & Hr & _ & _ & Hu & _).
  by exists board.
Defined.

(** The rows a new board brings on the store of the examples: board 3 with
    its six colour labels, its three lists and its entry in the log. *)
Example create_board_on_demo :
  let db' := (serve (create_board 3 POST
                {| form_name := Some "Holidays"; form_description := None;
                   form_background_color := None;
                   form_is_private := Some "on" |}) Demo.db).2 in
  (TrelloBoard.id <$> boards db') = [1; 2; 3]
  ∧ ((λ l, (TrelloLabel.board_id l, TrelloLabel.name l, TrelloLabel.color l))
       <$> labels db')
    = [(3, "", "emerald"); (3, "", "blue"); (3, "", "purple");
       (3, "", "red"); (3, "", "yellow"); (3, "", "orange")]
  ∧ ((λ l, (TrelloList.board_id l, TrelloList.name l, TrelloList.position l))
       <$> lists db')
    = [(1, "To Do", Some 0); (1, "Done", Some 4); (2, "Inbox", Some 0);
       (3, "To Do", Some 0); (3, "In Progress", Some 1); (3, "Done", Some 2)]
  ∧ ((λ a, (TrelloActivity.board_id a, TrelloActivity.action a,
            TrelloActivity.target_id a)) <$> activities db')
    = [(3, "created_board", Some 3)].
Proof. vm_compute. repeat split. Qed.

(** ** Checklist items *)

Lemma toggle_consistent u utcnow item :
  completion_consistent (toggle u utcnow item).
Proof.
  unfold completion_consistent, toggle. simpl.
  destruct (TrelloChecklistItem.is_complete item); simpl; eauto.
Qed.

(** Whatever the request, the items table is left as it was or has the one
    item toggled. *)
Lemma toggle_checklist_item_items db u utcnow id :
  checklist_items (serve (toggle_checklist_item u utcnow id) db).2
  = checklist_items db
  ∨ checklist_items (serve (toggle_checklist_item u utcnow id) db).2
    = Sql.update TrelloChecklistItem.id id (toggle u utcnow) (checklist_items db).
Proof.
  unfold toggle_checklist_item. run_view.
  destruct (Sql.get TrelloChecklistItem.id id (checklist_items db))
    as [item |]; simpl; [| by left].
  destruct (Sql.get TrelloChecklist.id _ (checklists db))
    as [checklist |]; simpl; [| by left].
  destruct (Sql.get TrelloCard.id _ (cards db)) as [card |]; simpl; [| by left].
  destruct (Sql.get TrelloList.id _ (lists db)) as [lst |]; simpl; [| by left].
  destruct (Sql.get TrelloBoard.id _ (boards db)) as [board |]; simpl; [| by left].
  destruct (can_edit db board u); simpl; [| by left].
  destruct (checklist_progress _ card). by right.
Qed.

Lemma toggle_checklist_item_allowed db u utcnow id item checklist card lst board :
  Sql.get TrelloChecklistItem.id id (checklist_items db) = Some item →
  Sql.get TrelloChecklist.id (TrelloChecklistItem.checklist_id item)
          (checklists db) = Some checklist →
  Sql.get TrelloCard.id (TrelloChecklist.card_id checklist) (cards db) = Some card →
  Sql.get TrelloList.id (TrelloCard.list_id card) (lists db) = Some lst →
  Sql.get TrelloBoard.id (TrelloList.board_id lst) (boards db) = Some board →
  can_edit db board u = true →
  ∃ progress,
    serve (toggle_checklist_item u utcnow id) db
    = (jsonify [("is_complete",
                 JBool (negb (TrelloChecklistItem.is_complete item)));
                ("checklist_progress", JInts progress)] 200,
       set_checklist_items
         (Sql.update TrelloChecklistItem.id id (toggle u utcnow)) db).
Proof.
  intros Hi Hc Hcard Hl Hb He. unfold toggle_checklist_item. run_view.
  rewrite Hi. simpl. rewrite Hc. simpl. rewrite Hcard. simpl.
  rewrite Hl. simpl. rewrite Hb. simpl. rewrite He. simpl.
  destruct (checklist_progress _ card) as [completed total]. by eexists.
Qed.

(** C6. The completion fields stay consistent under toggling.  A toggle
    request, whatever its outcome, leaves every checklist item consistent
    if every item was; and a toggle that goes through flips [is_complete]
    and stores both [completed_by] and [completed_at] when the item becomes
    complete, and clears both when it becomes incomplete. *)
Theorem toggle_completion_invariant :
  (∀ db u utcnow id,
     (∀ i, i ∈ checklist_items db → completion_consistent i) →
     ∀ i, i ∈ checklist_items (serve (toggle_checklist_item u utcnow id) db).2 →
          completion_consistent i)
  ∧ (∀ db u utcnow id item checklist card lst board,
       Sql.get TrelloChecklistItem.id id (checklist_items db) = Some item →
       Sql.get TrelloChecklist.id (TrelloChecklistItem.checklist_id item)
               (checklists db) = Some checklist →
       Sql.get TrelloCard.id (TrelloChecklist.card_id checklist) (cards db)
       = Some card →
       Sql.get TrelloList.id (TrelloCard.list_id card) (lists db) = Some lst →
       Sql.get TrelloBoard.id (TrelloList.board_id lst) (boards db) = Some board →
       can_edit db board u = true →
       ∃ item',
         Sql.get TrelloChecklistItem.id id
           (checklist_items (serve (toggle_checklist_item u utcnow id) db).2)
         = Some item'
         ∧ TrelloChecklistItem.is_complete item'
           = negb (TrelloChecklistItem.is_complete item)
         ∧ completion_consistent item'
         ∧ (TrelloChecklistItem.is_complete item' = true →
            TrelloChecklistItem.completed_by item' = Some u
            ∧ TrelloChecklistItem.completed_at item' = Some utcnow)
         ∧ (TrelloChecklistItem.is_complete item' = false →
            TrelloChecklistItem.completed_by item' = None
            ∧ TrelloChecklistItem.completed_at item' = None)).
Proof.
  split.
  - intros db u utcnow id Hinv i Hi.
    destruct (toggle_checklist_item_items db u utcnow id) as [H | H];
      rewrite H in Hi; [by apply Hinv |].
    apply update_elem_of in Hi as [Hi | (i0 & _ & _ & ->)];
      [by apply Hinv | apply toggle_consistent].
  - intros db u utcnow id item checklist card lst board Hi Hc Hcard Hl Hb He.
    destruct (toggle_checklist_item_allowed
                db u utcnow id item checklist card lst board Hi Hc Hcard Hl Hb He)
      as (progress & ->).
    exists (toggle u utcnow item). cbn [snd checklist_items set_checklist_items].
    rewrite get_update by done. rewrite Hi.
    split; [done |]. split; [done |]. split; [apply toggle_consistent |].
    unfold toggle. simpl.
    destruct (TrelloChecklistItem.is_complete item); simpl; by split.
Qed.

Lemma toggle_completion_invariant_witness :
  (∀ i, i ∈ checklist_items Demo.db → completion_consistent i)
  ∧ can_edit Demo.db Demo.private_board 3 = true
  ∧ (∀ i, i ∈ checklist_items (serve (toggle_checklist_item 3 500 1) Demo.db).2 →
          completion_consistent i)
  ∧ ∃ item',
      Sql.get TrelloChecklistItem.id 1
        (checklist_items (serve (toggle_checklist_item 3 500 1) Demo.db).2)
      = Some item'
      ∧ TrelloChecklistItem.is_complete item' = true
      ∧ TrelloChecklistItem.completed_by item' = Some 3
      ∧ TrelloChecklistItem.completed_at item' = Some 500.
Proof.
  assert (Hinv : ∀ i, i ∈ checklist_items Demo.db → completion_consistent i).
  { intros i Hi. simpl in Hi. apply list_elem_of_singleton in Hi as ->.
    split; reflexivity. }
  split; [exact Hinv | split; [reflexivity | split]].
  - exact (proj1 toggle_completion_invariant Demo.db 3 500 1 Hinv).
  - destruct (proj2 toggle_completion_invariant Demo.db 3 500 1 _ _ _ _ _
                eq_refl eq_refl eq_refl eq_refl eq_refl eq_refl)
      as (item' & Hget & Hflip & _ & Hset & _).
    exists item'. split; [exact Hget |]. split; [exact Hflip |].
    exact (Hset Hflip).
Defined.

(** ** Moving a card *)

Lemma move_card_allowed db u id data card lst board :
  Sql.get TrelloCard.id id (cards db) = Some card →
  Sql.get TrelloList.id (TrelloCard.list_id card) (lists db) = Some lst →
  Sql.get TrelloBoard.id (TrelloList.board_id lst) (boards db) = Some board →
  can_edit db board u = true →
  (∀ new_list,
     data_list_id data ≫= (λ target, Sql.get TrelloList.id target (lists db))
     = Some new_list →
     TrelloList.board_id new_list ≠ TrelloList.board_id lst) →
  serve (move_card u id data) db
  = if storable_move data
    then (success,
          match data_position data with
          | Some position =>
              set_cards (Sql.update TrelloCard.id id (set_card_position position)) db
          | None => db
          end)
    else (unhandled "OverflowError", db).
Proof.
  intros Hc Hl Hb He Hcross. unfold move_card, storable_move, storable_value.
  run_view.
  rewrite Hc. simpl. rewrite Hl. simpl. rewrite Hb. simpl. rewrite He. simpl.
  apply get_Some in Hb as [Hbid _].
  destruct (data_list_id data) as [target |]; simpl in *.
  - destruct (storable target); simpl; [| done].
    destruct (Sql.get TrelloList.id target (lists db)) as [new_list |]; simpl.
    + rewrite decide_False by (rewrite Hbid; by apply Hcross).
      simpl. destruct (data_position data) as [[position |] |]; simpl; try done.
      by destruct (storable position).
    + destruct (data_position data) as [[position |] |]; simpl; try done.
      by destruct (storable position).
  - destruct (data_position data) as [[position |] |]; simpl; try done.
    by destruct (storable position).
Qed.

(** Without the right to edit, or with a card whose list or board is gone,
    nothing is written. *)
Lemma move_card_cards db u id data target new_list card lst :
  Sql.get TrelloCard.id id (cards db) = Some card →
  Sql.get TrelloList.id (TrelloCard.list_id card) (lists db) = Some lst →
  data_list_id data = Some target →
  Sql.get TrelloList.id target (lists db) = Some new_list →
  TrelloList.board_id new_list ≠ TrelloList.board_id lst →
  (serve (move_card u id data) db).2 = db
  ∨ ∃ position,
      (serve (move_card u id data) db).2
      = set_cards (Sql.update TrelloCard.id id (set_card_position position)) db.
Proof.
  intros Hc Hl Ht Hn Hcross.
  destruct (Sql.get TrelloBoard.id (TrelloList.board_id lst) (boards db))
    as [board |] eqn:Hb.
  - destruct (can_edit db board u) eqn:He.
    + rewrite (move_card_allowed db u id data card lst board Hc Hl Hb He).
      * destruct (storable_move data); [| by left].
        destruct (data_position data) as [position |]; [right | left]; eauto.
      * intros nl. rewrite Ht. simpl. rewrite Hn. by intros [= <-].
    + left. unfold move_card. run_view.
      rewrite Hc. simpl. rewrite Hl. simpl. rewrite Hb. simpl. by rewrite He.
  - left. unfold move_card. run_view.
    rewrite Hc. simpl. rewrite Hl. simpl. by rewrite Hb.
Qed.

(** C7. A move request whose target list belongs to another board than the
    card's list leaves the card in its list: reading the card again gives
    the same [list_id], and no entry is added to the activity log.  For a
    user who may edit the board the request is answered with success; the
    one other answer is the error of the driver, for a request that carries
    an integer it cannot bind. *)
Theorem move_card_cross_board db u id data target new_list card lst :
  Sql.get TrelloCard.id id (cards db) = Some card →
  Sql.get TrelloList.id (TrelloCard.list_id card) (lists db) = Some lst →
  data_list_id data = Some target →
  Sql.get TrelloList.id target (lists db) = Some new_list →
  TrelloList.board_id new_list ≠ TrelloList.board_id lst →
  (TrelloCard.list_id <$>
     Sql.get TrelloCard.id id (cards (serve (move_card u id data) db).2))
  = Some (TrelloCard.list_id card)
  ∧ activities (serve (move_card u id data) db).2 = activities db
  ∧ (∀ board,
       Sql.get TrelloBoard.id (TrelloList.board_id lst) (boards db) = Some board →
       can_edit db board u = true →
       (serve (move_card u id data) db).1
       = if storable_move data then success else unhandled "OverflowError").
Proof.
  intros Hc Hl Ht Hn Hcross. split; [| split].
  - destruct (move_card_cards db u id data target new_list card lst
                Hc Hl Ht Hn Hcross) as [-> | (position & ->)].
    + by rewrite Hc.
    + cbn [cards set_cards]. rewrite get_update by done. by rewrite Hc.
  - by destruct (move_card_cards db u id data target new_list card lst
                   Hc Hl Ht Hn Hcross) as [-> | (position & ->)].
  - intros board Hb He.
    rewrite (move_card_allowed db u id data card lst board Hc Hl Hb He).
    + by destruct (storable_move data).
    + intros nl. rewrite Ht. simpl. rewrite Hn. by intros [= <-].
Qed.

Lemma move_card_cross_board_witness :
  TrelloList.board_id (Demo.list_of 3 2 "Inbox" (Some 0))
  ≠ TrelloList.board_id (Demo.list_of 1 1 "To Do" (Some 0))
  ∧ (TrelloCard.list_id <$>
       Sql.get TrelloCard.id 1
         (cards (serve (move_card 3 1 {| data_list_id := Some 3;
                                         data_position := Some (Some 2) |})
                       Demo.db).2))
    = Some 1
  ∧ (serve (move_card 3 1 {| data_list_id := Some 3;
                             data_position := Some (Some 2) |}) Demo.db).1
    = success.
Proof.
  assert (Hcross : TrelloList.board_id (Demo.list_of 3 2 "Inbox" (Some 0))
                   ≠ TrelloList.board_id (Demo.list_of 1 1 "To Do" (Some 0)))
    by (intros [=]).
  destruct (move_card_cross_board Demo.db 3 1
              {| data_list_id := Some 3; data_position := Some (Some 2) |}
              3 (Demo.list_of 3 2 "Inbox" (Some 0))
              (Demo.card_of 1 1 "Write rota" (Some 1) (Some 100) false)
              (Demo.list_of 1 1 "To Do" (Some 0))
              eq_refl eq_refl eq_refl eq_refl Hcross)
    as (Hlist & _ & Hok).
  split; [exact Hcross | split; [exact Hlist |]].
  exact (Hok Demo.private_board eq_refl eq_refl).
Defined.

(** The same request with a target list of the card's own board does move
    the card. *)
Example move_card_same_board :
  (TrelloCard.list_id <$>
     Sql.get TrelloCard.id 1
       (cards (serve (move_card 3 1 {| data_list_id := Some 2;
                                       data_position := None |}) Demo.db).2))
  = Some 2.
Proof. vm_compute. reflexivity. Qed.

(** ** Deleting a comment *)

Lemma delete_comment_run db u id comment card lst board :
  Sql.get TrelloComment.id id (comments db) = Some comment →
  Sql.get TrelloCard.id (TrelloComment.card_id comment) (cards db) = Some card →
  Sql.get TrelloList.id (TrelloCard.list_id card) (lists db) = Some lst →
  Sql.get TrelloBoard.id (TrelloList.board_id lst) (boards db) = Some board →
  serve (delete_comment u id) db
  = if bool_decide (TrelloComment.user_id comment ≠ u) && negb (is_owner db board u)
    then (permission_denied, db)
    else (success, set_comments (Sql.delete TrelloComment.id id) db).
Proof.
  intros Hc Hcard Hl Hb. unfold delete_comment. run_view.
  rewrite Hc. simpl. rewrite Hcard. simpl. rewrite Hl. simpl. rewrite Hb. simpl.
  by destruct (bool_decide _ && negb _).
Qed.

(** C8. Deleting a comment goes through exactly for its author and for an
    owner of the board, and then the comment is gone; any other user, one
    with the right to edit the board included, is answered with permission
    denied and the store is left as it was. *)
Theorem delete_comment_permission db u id comment card lst board :
  Sql.get TrelloComment.id id (comments db) = Some comment →
  Sql.get TrelloCard.id (TrelloComment.card_id comment) (cards db) = Some card →
  Sql.get TrelloList.id (TrelloCard.list_id card) (lists db) = Some lst →
  Sql.get TrelloBoard.id (TrelloList.board_id lst) (boards db) = Some board →
  ((serve (delete_comment u id) db).1 = success ↔
   TrelloComment.user_id comment = u ∨ is_owner db board u = true)
  ∧ (TrelloComment.user_id comment = u ∨ is_owner db board u = true →
     Sql.get TrelloComment.id id (comments (serve (delete_comment u id) db).2)
     = None)
  ∧ (TrelloComment.user_id comment ≠ u →
     is_owner db board u = false →
     serve (delete_comment u id) db = (permission_denied, db)).
Proof.
  intros Hc Hcard Hl Hb.
  rewrite (delete_comment_run db u id comment card lst board Hc Hcard Hl Hb).
  destruct (decide (TrelloComment.user_id comment = u)) as [Hauthor | Hauthor].
  - rewrite bool_decide_false by (by intros H). simpl.
    split; [by split; [left |] |].
    split; [intros _; apply get_delete | done].
  - rewrite bool_decide_true by done. simpl.
    destruct (is_owner db board u); simpl.
    + split; [by split; [right |] |].
      split; [intros _; apply get_delete | done].
    + split; [split; [done | by intros [? | ?]] |].
      split; [by intros [? | ?] | done].
Qed.

Lemma delete_comment_permission_witness :
  can_edit Demo.db Demo.private_board 4 = true
  ∧ 3 ≠ 4
  ∧ is_owner Demo.db Demo.private_board 4 = false
  ∧ serve (delete_comment 4 1) Demo.db = (permission_denied, Demo.db).
Proof.
  assert (Hother : 3 ≠ 4) by (intros [=]).
  split; [reflexivity | split; [exact Hother | split; [reflexivity |]]].
  exact (proj2 (proj2 (delete_comment_permission Demo.db 4 1
           {| TrelloComment.id := 1; TrelloComment.card_id := 1;
              TrelloComment.user_id := 3;
              TrelloComment.content := "Draft attached" |}
           (Demo.card_of 1 1 "Write rota" (Some 1) (Some 100) false)
           (Demo.list_of 1 1 "To Do" (Some 0)) Demo.private_board
           eq_refl eq_refl eq_refl eq_refl))
         Hother eq_refl).
Defined.

(** The author (user 3) and the creator of the board (user 1) delete the
    same comment. *)
Example delete_comment_author_and_owner :
  (serve (delete_comment 3 1) Demo.db).1 = success
  ∧ comments (serve (delete_comment 3 1) Demo.db).2 = []
  ∧ (serve (delete_comment 1 1) Demo.db).1 = success
  ∧ comments (serve (delete_comment 1 1) Demo.db).2 = [].
Proof. vm_compute. repeat split. Qed.

(** * Further properties *)

(** ** Checklist progress *)

Lemma progress_items (items : list TrelloChecklistItem.t) completed total :
  foldl (λ '(completed, total) item,
           (if TrelloChecklistItem.is_complete item
            then completed + 1 else completed, total + 1))
        (completed, total) items
  = (completed + Z.of_nat (length (filter
                    (λ i, TrelloChecklistItem.is_complete i = true) items)),
     total + Z.of_nat (length items)).
Proof.
  revert completed total.
  induction items as [| item items IH]; intros completed total; simpl.
  - f_equal; lia.
  - rewrite IH, filter_cons.
    destruct (TrelloChecklistItem.is_complete item); simpl; f_equal; lia.
Qed.

Lemma checklist_progress_card_items db card :
  checklist_progress db card
  = (Z.of_nat (length (filter (λ i, TrelloChecklistItem.is_complete i = true)
                              (card_items db card))),
     Z.of_nat (length (card_items db card))).
Proof.
  assert (Hcount : ∀ (cls : list TrelloChecklist.t) completed total,
    foldl (λ acc checklist,
             foldl (λ '(completed, total) item,
                      (if TrelloChecklistItem.is_complete item
                       then completed + 1 else completed, total + 1))
                   acc
                   (filter (λ i, TrelloChecklistItem.checklist_id i
                                 = TrelloChecklist.id checklist)
                           (checklist_items db)))
          (completed, total) cls
    = (completed + Z.of_nat (length (filter
                      (λ i, TrelloChecklistItem.is_complete i = true)
                      (cls ≫= λ checklist,
                         filter (λ i, TrelloChecklistItem.checklist_id i
                                      = TrelloChecklist.id checklist)
                                (checklist_items db)))),
       total + Z.of_nat (length
                      (cls ≫= λ checklist,
                         filter (λ i, TrelloChecklistItem.checklist_id i
                                      = TrelloChecklist.id checklist)
                                (checklist_items db))))).
  { induction cls as [| checklist cls IH];
      intros completed total.
    - simpl. f_equal; lia.
    - rewrite bind_cons. cbn [foldl].
      rewrite progress_items, IH, list.filter_app, !length_app.
      f_equal; lia. }
  unfold checklist_progress, card_items. by rewrite Hcount.
Qed.

(** [checklist_progress] counts the complete items and the items of the
    checklists of the card; the first count never exceeds the second. *)
Theorem checklist_progress_counts db card :
  checklist_progress db card
  = (Z.of_nat (length (filter (λ i, TrelloChecklistItem.is_complete i = true)
                              (card_items db card))),
     Z.of_nat (length (card_items db card)))
  ∧ 0 ≤ (checklist_progress db card).1 ≤ (checklist_progress db card).2.
Proof.
  rewrite checklist_progress_card_items. split; [done |]. simpl.
  split; [lia |]. apply inj_le, length_filter.
Qed.

(** The card of the specification's example: checklists of three and two
    items, with one and two of them complete. *)
Example checklist_progress_3_5 :
  let item id checklist_id is_complete :=
    {| TrelloChecklistItem.id := id;
       TrelloChecklistItem.checklist_id := checklist_id;
       TrelloChecklistItem.content := "";
       TrelloChecklistItem.is_complete := is_complete;
       TrelloChecklistItem.position := 0;
       TrelloChecklistItem.completed_by := if is_complete then Some 1 else None;
       TrelloChecklistItem.completed_at := if is_complete then Some 9 else None |} in
  let checklist id :=
    {| TrelloChecklist.id := id; TrelloChecklist.card_id := 1;
       TrelloChecklist.name := "Checklist"; TrelloChecklist.position := 0 |} in
  checklist_progress
    (set_checklist_items
       (λ _, [item 1 1 true; item 2 1 false; item 3 1 false;
              item 4 2 true; item 5 2 true])
       (set_checklists (λ _, [checklist 1; checklist 2]) Demo.db))
    (Demo.card_of 1 1 "Write rota" (Some 1) (Some 100) false)
  = (3, 5).
Proof. vm_compute. reflexivity. Qed.

(** ** Who may write *)

Lemma is_owner_can_edit db board u :
  is_owner db board u = true → can_edit db board u = true.
Proof.
  intros H. apply is_owner_true in H. apply can_edit_true.
  destruct H as [H | H]; [by left | right].
  exists "owner". split; [done |]. by left.
Qed.

Lemma not_owner_without_edit db board u :
  can_edit db board u = false → is_owner db board u = false.
Proof.
  intros He. destruct (is_owner db board u) eqn:Ho; [| done].
  apply is_owner_can_edit in Ho. congruence.
Qed.

(** A user who may edit no board changes nothing, whatever the request,
    save by creating a board or by deleting a comment. *)
Theorem no_write_without_edit_right current_user utcnow req db :
  (∀ board, board ∈ boards db →
            can_edit db board (User.id current_user) = false) →
  (∀ method form, req ≠ CreateBoard method form) →
  (∀ id, req ≠ DeleteComment id) →
  handle current_user utcnow req db = db.
Proof.
  intros Hno Hcreate Hdelete.
  destruct req; unfold handle.
  - by destruct (Hcreate method form).
  - unfold edit_board. run_view. denied Hno (@get_Some) not_owner_without_edit.
  - unfold archive_board. run_reply. denied Hno (@get_Some) not_owner_without_edit.
  - unfold delete_board. run_reply. denied Hno (@get_Some) not_owner_without_edit.
  - unfold create_list. run_view. denied Hno (@get_Some) not_owner_without_edit.
  - unfold rename_list. run_view. denied Hno (@get_Some) not_owner_without_edit.
  - unfold archive_list. run_view. denied Hno (@get_Some) not_owner_without_edit.
  - unfold move_list. run_view. denied Hno (@get_Some) not_owner_without_edit.
  - unfold create_card. run_view. denied Hno (@get_Some) not_owner_without_edit.
  - unfold move_card. run_view. denied Hno (@get_Some) not_owner_without_edit.
  - unfold archive_card. run_view. denied Hno (@get_Some) not_owner_without_edit.
  - unfold delete_card. run_view. denied Hno (@get_Some) not_owner_without_edit.
  - unfold add_comment. run_view. denied Hno (@get_Some) not_owner_without_edit.
  - by destruct (Hdelete id).
  - unfold add_checklist. run_view. denied Hno (@get_Some) not_owner_without_edit.
  - unfold add_checklist_item. run_view. denied Hno (@get_Some) not_owner_without_edit.
  - unfold toggle_checklist_item. run_view. denied Hno (@get_Some) not_owner_without_edit.
  - unfold delete_checklist. run_view. denied Hno (@get_Some) not_owner_without_edit.
  - unfold add_board_member. run_view. denied Hno (@get_Some) not_owner_without_edit.
  - unfold remove_board_member. run_view. denied Hno (@get_Some) not_owner_without_edit.
Qed.

Lemma no_write_without_edit_right_witness :
  (∀ board, board ∈ boards viewer_store → can_edit viewer_store board 2 = false)
  ∧ handle {| User.id := 2; User.name := "Bo" |} 500
           (MoveList 1 (Some (Some 9))) viewer_store
    = viewer_store.
Proof.
  assert (Hno : ∀ board, board ∈ boards viewer_store →
                         can_edit viewer_store board 2 = false).
  { intros board Hb. simpl in Hb. by apply list_elem_of_singleton in Hb as ->. }
  split; [exact Hno |].
  by apply (no_write_without_edit_right
              {| User.id := 2; User.name := "Bo" |} 500
              (MoveList 1 (Some (Some 9))) viewer_store Hno).
Defined.

(** The same request of the creator of the board is carried out. *)
Example move_list_by_creator :
  (TrelloList.position <$>
     lists (handle {| User.id := 1; User.name := "Ann" |} 500
                   (MoveList 1 (Some (Some 9))) viewer_store))
  = [Some 9; Some 4].
Proof. vm_compute. reflexivity. Qed.

(** The settings, the archive flag, the deletion and the members of a board
    are in the hands of its owners: the same requests of any other user
    leave the store as it was, the right to edit the board
    notwithstanding. *)
Theorem owner_only_administration db u id board :
  Sql.get TrelloBoard.id id (boards db) = Some board →
  is_owner db board u = false →
  (∀ method form, (serve (edit_board u id method form) db).2 = db)
  ∧ serve_reply (archive_board u id) db = (respond permission_denied, db)
  ∧ serve_reply (delete_board u id) db = (redirect_url_for "trello.index", db)
  ∧ (∀ user_id role,
       serve (add_board_member u id user_id role) db = (permission_denied, db))
  ∧ (∀ user_id,
       serve (remove_board_member u id user_id) db = (permission_denied, db)).
Proof.
  intros Hb Ho. repeat split; intros.
  - unfold edit_board. run_view. rewrite Hb. simpl. by rewrite Ho.
  - unfold archive_board. run_reply. rewrite Hb. simpl. by rewrite Ho.
  - unfold delete_board. run_reply. rewrite Hb. simpl. by rewrite Ho.
  - unfold add_board_member. run_view. rewrite Hb. simpl. by rewrite Ho.
  - unfold remove_board_member. run_view. rewrite Hb. simpl. by rewrite Ho.
Qed.

Lemma owner_only_administration_witness :
  can_edit Demo.db Demo.private_board 4 = true
  ∧ is_owner Demo.db Demo.private_board 4 = false
  ∧ serve_reply (delete_board 4 1) Demo.db
    = (redirect_url_for "trello.index", Demo.db)
  ∧ serve (add_board_member 4 1 (Some 2) (Some (Some "owner"))) Demo.db
    = (permission_denied, Demo.db).
Proof.
  destruct (owner_only_administration Demo.db 4 1 Demo.private_board
              eq_refl eq_refl) as (_ & _ & Hdelete & Hadd & _).
  split; [reflexivity | split; [reflexivity | split; [exact Hdelete |]]].
  exact (Hadd (Some 2) (Some (Some "owner"))).
Defined.

(** ** Comments *)

Lemma add_comment_run db (current_user : User.t) card_id body card lst board :
  Sql.get TrelloCard.id card_id (cards db) = Some card →
  Sql.get TrelloList.id (TrelloCard.list_id card) (lists db) = Some lst →
  Sql.get TrelloBoard.id (TrelloList.board_id lst) (boards db) = Some board →
  can_edit db board (User.id current_user) = true →
  serve (add_comment current_user card_id body) db
  = match body with
    | form_body _ => (abort 415, db)
    | json_body None | json_body (Some "") =>
        (jsonify [("error", JStr "Comment content required")] 400, db)
    | json_body (Some content) =>
        (jsonify [("id", JInt (Sql.next_id (TrelloComment.id <$> comments db)));
                  ("user", JStr (User.name current_user));
                  ("content", JStr content)] 200,
         set_activities
           (λ rows, rows ++
              [{| TrelloActivity.id :=
                    Sql.next_id (TrelloActivity.id <$> activities db);
                  TrelloActivity.board_id := TrelloBoard.id board;
                  TrelloActivity.user_id := Some (User.id current_user);
                  TrelloActivity.action := "added_comment";
                  TrelloActivity.target_type := Some "card";
                  TrelloActivity.target_id := Some card_id;
                  TrelloActivity.details := None |}])
           (set_comments
              (λ rows, rows ++
                 [{| TrelloComment.id :=
                       Sql.next_id (TrelloComment.id <$> comments db);
                     TrelloComment.card_id := card_id;
                     TrelloComment.user_id := User.id current_user;
                     TrelloComment.content := content |}])
              db))
    end.
Proof.
  intros Hc Hl Hb He. unfold add_comment, request_json. run_view.
  rewrite Hc. simpl. rewrite Hl. simpl. rewrite Hb. simpl. rewrite He. simpl.
  destruct body as [[content |] | form_content]; simpl; try done.
  destruct (decide (content = "")) as [-> | Hne]; simpl; [done |].
  rewrite decide_False by done. simpl.
  destruct content as [| a content]; [done |]. reflexivity.
Qed.

(** A comment needs a content in the JSON object of the request: without
    one, or with an empty one, an editor is answered with status 400 and
    nothing is written.  A posted form does not stand in for it: the view
    reads the JSON body first, which ends the request with status 415,
    whatever the form carries, and nothing is written. *)
Theorem add_comment_requires_content db (current_user : User.t) card_id
    card lst board :
  Sql.get TrelloCard.id card_id (cards db) = Some card →
  Sql.get TrelloList.id (TrelloCard.list_id card) (lists db) = Some lst →
  Sql.get TrelloBoard.id (TrelloList.board_id lst) (boards db) = Some board →
  can_edit db board (User.id current_user) = true →
  (∀ content,
     content = None ∨ content = Some "" →
     serve (add_comment current_user card_id (json_body content)) db
     = (jsonify [("error", JStr "Comment content required")] 400, db))
  ∧ (∀ content,
       serve (add_comment current_user card_id (form_body content)) db
       = (abort 415, db)).
Proof.
  intros Hc Hl Hb He. split.
  - intros content Hcontent.
    rewrite (add_comment_run db current_user card_id _ card lst board Hc Hl Hb He).
    by destruct Hcontent as [-> | ->].
  - intros content.
    by rewrite (add_comment_run db current_user card_id _ card lst board
                  Hc Hl Hb He).
Qed.

Lemma add_comment_requires_content_witness :
  can_edit Demo.db Demo.private_board 3 = true
  ∧ serve (add_comment {| User.id := 3; User.name := "Cy" |} 1
                       (json_body (Some ""))) Demo.db
    = (jsonify [("error", JStr "Comment content required")] 400, Demo.db)
  ∧ serve (add_comment {| User.id := 3; User.name := "Cy" |} 1
                       (form_body (Some "Seen"))) Demo.db
    = (abort 415, Demo.db).
Proof.
  destruct (add_comment_requires_content Demo.db
              {| User.id := 3; User.name := "Cy" |} 1
              (Demo.card_of 1 1 "Write rota" (Some 1) (Some 100) false)
              (Demo.list_of 1 1 "To Do" (Some 0)) Demo.private_board
              eq_refl eq_refl eq_refl eq_refl)
    as [Hjson Hform].
  split; [reflexivity | split].
  - apply Hjson. by right.
  - apply Hform.
Defined.

Lemma get_app_new {A} (key : A → Z) (rows : list A) (r : A) :
  key r = Sql.next_id (key <$> rows) →
  Sql.get key (Sql.next_id (key <$> rows)) (rows ++ [r]) = Some r.
Proof.
  intros Hr. unfold Sql.get. rewrite list.filter_app.
  rewrite (filter_fresh key rows (key <$> rows))
    by (intros; by apply list_elem_of_fmap_2).
  rewrite filter_cons_True by done. done.
Qed.

Lemma delete_app_new {A} (key : A → Z) (rows : list A) (r : A) :
  key r = Sql.next_id (key <$> rows) →
  Sql.delete key (Sql.next_id (key <$> rows)) (rows ++ [r]) = rows.
Proof.
  intros Hr. unfold Sql.delete.
  rewrite list.filter_app, filter_cons_False, filter_nil, app_nil_r
    by (intros H; by apply H).
  clear Hr.
  assert (Hall : ∀ r', r' ∈ rows → key r' ≠ Sql.next_id (key <$> rows)).
  { intros r' Hr' Heq. apply (next_id_fresh (key <$> rows)).
    rewrite <- Heq. by apply list_elem_of_fmap_2. }
  revert Hall. generalize (Sql.next_id (key <$> rows)). intros n Hall.
  induction rows as [| r' rows IH]; [done |].
  rewrite filter_cons_True by (apply Hall; by left).
  f_equal. apply IH. intros r'' Hr''. apply Hall. by right.
Qed.

(** A comment whose JSON body carries a content is stored under the name
    of the user who posts it, and that user can take it back: deleting the
    new comment succeeds and leaves the comments as they were before it was
    added. *)
Theorem add_then_delete_comment db (current_user : User.t) card_id
    content card lst board :
  Sql.get TrelloCard.id card_id (cards db) = Some card →
  Sql.get TrelloList.id (TrelloCard.list_id card) (lists db) = Some lst →
  Sql.get TrelloBoard.id (TrelloList.board_id lst) (boards db) = Some board →
  can_edit db board (User.id current_user) = true →
  content ≠ "" →
  ∃ comment,
    comments (serve (add_comment current_user card_id (json_body (Some content)))
                    db).2
    = comments db ++ [comment]
    ∧ TrelloComment.card_id comment = card_id
    ∧ TrelloComment.user_id comment = User.id current_user
    ∧ TrelloComment.content comment = content
    ∧ (serve (delete_comment (User.id current_user) (TrelloComment.id comment))
             (serve (add_comment current_user card_id (json_body (Some content)))
                    db).2).1
      = success
    ∧ comments
        (serve (delete_comment (User.id current_user) (TrelloComment.id comment))
               (serve (add_comment current_user card_id (json_body (Some content)))
                      db).2).2
      = comments db.
Proof.
  intros Hc Hl Hb He Hne.
  rewrite (add_comment_run db current_user card_id _ card lst board Hc Hl Hb He).
  destruct content as [| a content]; [done |]. cbn [snd].
  eexists. split; [reflexivity |]. repeat split.
  - erewrite delete_comment_run;
      [| simpl; by apply (get_app_new TrelloComment.id)
       | exact Hc | exact Hl | exact Hb].
    simpl. by rewrite bool_decide_false by (by intros H).
  - erewrite delete_comment_run;
      [| simpl; by apply (get_app_new TrelloComment.id)
       | exact Hc | exact Hl | exact Hb].
    simpl. rewrite bool_decide_false by (by intros H). simpl.
    by apply (delete_app_new TrelloComment.id).
Qed.

Lemma add_then_delete_comment_witness :
  can_edit Demo.db Demo.private_board 3 = true
  ∧ "Seen" ≠ ""
  ∧ ∃ comment,
      comments (serve (add_comment {| User.id := 3; User.name := "Cy" |} 1
                                   (json_body (Some "Seen"))) Demo.db).2
      = comments Demo.db ++ [comment]
      ∧ TrelloComment.user_id comment = 3
      ∧ comments
          (serve (delete_comment 3 (TrelloComment.id comment))
                 (serve (add_comment {| User.id := 3; User.name := "Cy" |} 1
                                     (json_body (Some "Seen"))) Demo.db).2).2
        = comments Demo.db.
Proof.
  assert (Hne : "Seen" ≠ "") by (intros [=]).
  destruct (add_then_delete_comment Demo.db {| User.id := 3; User.name := "Cy" |}
              1 "Seen"
              (Demo.card_of 1 1 "Write rota" (Some 1) (Some 100) false)
              (Demo.list_of 1 1 "To Do" (Some 0)) Demo.private_board
              eq_refl eq_refl eq_refl eq_refl Hne)
    as (comment & Hadd & _ & Hu & _ & _ & Hback).
  split; [reflexivity | split; [exact Hne |]].
  exists comment. split; [exact Hadd | split; [exact Hu | exact Hback]].
Defined.

(** ** Board members *)

Lemma filter_all {A} (P : A → Prop) `{!∀ x, Decision (P x)} (l : list A) :
  (∀ x, x ∈ l → P x) → filter P l = l.
Proof.
  induction l as [| x l IH]; intros Hall; [done |].
  rewrite filter_cons_True by (apply Hall; by left).
  f_equal. apply IH. intros y Hy. apply Hall. by right.
Qed.

Lemma filter_none {A} (P : A → Prop) `{!∀ x, Decision (P x)} (l : list A) :
  (∀ x, x ∈ l → ¬ P x) → filter P l = [].
Proof.
  induction l as [| x l IH]; intros Hnone; [done |].
  rewrite filter_cons_False by (apply Hnone; by left).
  apply IH. intros y Hy. apply Hnone. by right.
Qed.

Lemma add_board_member_run db u id user_id role board :
  Sql.get TrelloBoard.id id (boards db) = Some board →
  is_owner db board u = true →
  serve (add_board_member u id user_id role) db
  = match user_id ≫= λ user_id, Sql.get User.id user_id (users db) with
    | None => (jsonify [("error", JStr "User not found")] 404, db)
    | Some user =>
        if bool_decide (User.id user ∈ (User.id <$> members db board))
        then (success, db)
        else (success,
              set_board_members
                (λ rows, rows ++
                   [{| BoardMember.board_id := TrelloBoard.id board;
                       BoardMember.user_id := User.id user;
                       BoardMember.role := json_get "member" role |}])
                db)
    end.
Proof.
  intros Hb Ho. unfold add_board_member. run_view.
  rewrite Hb. simpl. rewrite Ho. simpl.
  destruct user_id as [user_id |]; simpl; [| done].
  destruct (Sql.get User.id user_id (users db)) as [user |]; simpl; [| done].
  by destruct (bool_decide _).
Qed.

Lemma remove_board_member_run db u id user_id board :
  Sql.get TrelloBoard.id id (boards db) = Some board →
  is_owner db board u = true →
  serve (remove_board_member u id user_id) db
  = (success,
     set_board_members
       (filter (λ r, ¬ (BoardMember.board_id r = TrelloBoard.id board
                        ∧ BoardMember.user_id r = user_id)))
       db).
Proof.
  intros Hb Ho. unfold remove_board_member. run_view.
  rewrite Hb. simpl. by rewrite Ho.
Qed.

(** An owner who adds a user of the system holding no row on the board
    gives that user the role of the request, member when the request names
    none: the role is what [get_member_role] resolves afterwards, the user
    can view the board, and can edit it exactly when the role is owner,
    admin or member or the user created the board. *)
Theorem add_board_member_grants db u id user_id role board user :
  Sql.get TrelloBoard.id id (boards db) = Some board →
  is_owner db board u = true →
  Sql.get User.id user_id (users db) = Some user →
  ¬ explicit_member db board user_id →
  (serve (add_board_member u id (Some user_id) role) db).1 = success
  ∧ get_member_role (serve (add_board_member u id (Some user_id) role) db).2
                    board user_id
    = json_get "member" role
  ∧ can_view (serve (add_board_member u id (Some user_id) role) db).2
             board user_id = true
  ∧ (can_edit (serve (add_board_member u id (Some user_id) role) db).2
              board user_id = true ↔
     is_creator board user_id
     ∨ ∃ r, json_get "member" role = Some r ∧ r ∈ ["owner"; "admin"; "member"]).
Proof.
  intros Hb Ho Hu Hnot.
  apply get_Some in Hu as Hu'. destruct Hu' as [Hid Hin].
  assert (Hnone : filter (λ r, BoardMember.board_id r = TrelloBoard.id board
                               ∧ BoardMember.user_id r = user_id)
                         (board_members db) = []).
  { apply filter_none. intros r Hr [? ?]. apply Hnot. by exists r. }
  rewrite (add_board_member_run db u id (Some user_id) role board Hb Ho).
  simpl. rewrite Hu.
  rewrite bool_decide_false
    by (rewrite members_ids, Hid; by intros [_ ?]).
  cbn [fst snd]. rewrite Hid.
  assert (Hrole :
    get_member_role
      (set_board_members
         (λ rows, rows ++
            [{| BoardMember.board_id := TrelloBoard.id board;
                BoardMember.user_id := user_id;
                BoardMember.role := json_get "member" role |}]) db)
      board user_id
    = json_get "member" role).
  { unfold get_member_role. simpl.
    rewrite list.filter_app, Hnone, filter_cons_True by done. done. }
  split; [done |]. split; [exact Hrole |]. split.
  - unfold can_view. destruct (TrelloBoard.is_private board); [simpl | done].
    apply orb_true_iff. left. apply bool_decide_eq_true, members_ids. split.
    + unfold known_user. simpl. rewrite <- Hid. by apply list_elem_of_fmap_2.
    + eexists. split; [| split]; [simpl; apply elem_of_app; right; by left | |];
        done.
  - rewrite can_edit_true, Hrole. unfold is_creator. done.
Qed.

Lemma add_board_member_grants_witness :
  is_owner Demo.db Demo.public_board 2 = true
  ∧ ¬ explicit_member Demo.db Demo.public_board 3
  ∧ get_member_role
      (serve (add_board_member 2 2 (Some 3) (Some (Some "viewer"))) Demo.db).2
      Demo.public_board 3
    = Some "viewer"
  ∧ can_edit
      (serve (add_board_member 2 2 (Some 3) (Some (Some "viewer"))) Demo.db).2
      Demo.public_board 3
    = false.
Proof.
  assert (Hnot : ¬ explicit_member Demo.db Demo.public_board 3).
  { intros (r & Hr & Hb & _). simpl in Hr.
    repeat (apply elem_of_cons in Hr as [-> | Hr]; [discriminate Hb |]).
    by apply elem_of_nil in Hr. }
  split; [reflexivity | split; [exact Hnot |]].
  split; [| reflexivity].
  exact (proj1 (proj2 (add_board_member_grants Demo.db 2 2 3
                         (Some (Some "viewer")) Demo.public_board
                         {| User.id := 3; User.name := "Cy" |}
                         eq_refl eq_refl eq_refl Hnot))).
Defined.





(** Adding a user who holds no row on the board and removing the user again
    leaves the rows of [board_members] as they were. *)
Theorem add_then_remove_board_member db u id user_id role board user :
  Sql.get TrelloBoard.id id (boards db) = Some board →
  is_owner db board u = true →
  Sql.get User.id user_id (users db) = Some user →
  ¬ explicit_member db board user_id →
  board_members
    (serve (remove_board_member u id user_id)
           (serve (add_board_member u id (Some user_id) role) db).2).2
  = board_members db.
Proof.
  intros Hb Ho Hu Hnot.
  apply get_Some in Hu as Hu'. destruct Hu' as [Hid Hin].
  rewrite (add_board_member_run db u id (Some user_id) role board Hb Ho).
  simpl. rewrite Hu.
  rewrite bool_decide_false
    by (rewrite members_ids, Hid; by intros [_ ?]).
  cbn [snd].
  assert (Ho' : is_owner
    (set_board_members
       (λ rows, rows ++
          [{| BoardMember.board_id := TrelloBoard.id board;
              BoardMember.user_id := User.id user;
              BoardMember.role := json_get "member" role |}]) db)
    board u = true).
  { apply is_owner_true. apply is_owner_true in Ho as [? | Hrole]; [by left |].
    right. unfold get_member_role in *. simpl.
    rewrite list.filter_app.
    destruct (filter _ (board_members db)) as [| r rows]; [done |]. done. }
  set (db1 := set_board_members _ db) in *.
  rewrite (remove_board_member_run db1 u id user_id board Hb Ho').
  subst db1. cbn [snd board_members set_board_members].
  rewrite list.filter_app, filter_cons_False, filter_nil, app_nil_r
    by (intros H; apply H; by rewrite Hid).
  apply filter_all. intros r Hr [? ?]. apply Hnot. by exists r.
Qed.

Lemma add_then_remove_board_member_witness :
  is_owner Demo.db Demo.public_board 2 = true
  ∧ ¬ explicit_member Demo.db Demo.public_board 3
  ∧ board_members
      (serve (remove_board_member 2 2 3)
             (serve (add_board_member 2 2 (Some 3) None) Demo.db).2).2
    = board_members Demo.db.
Proof.
  assert (Hnot : ¬ explicit_member Demo.db Demo.public_board 3).
  { intros (r & Hr & Hb & _). simpl in Hr.
    repeat (apply elem_of_cons in Hr as [-> | Hr]; [discriminate Hb |]).
    by apply elem_of_nil in Hr. }
  split; [reflexivity | split; [exact Hnot |]].
  exact (add_then_remove_board_member Demo.db 2 2 3 None Demo.public_board
           {| User.id := 3; User.name := "Cy" |}
           eq_refl eq_refl eq_refl Hnot).
Defined.

(** ** Toggling twice *)

Lemma unique_row {A} (key : A → Z) (rows : list A) r r' :
  NoDup (key <$> rows) → r ∈ rows → r' ∈ rows → key r = key r' → r = r'.
Proof.
  induction rows as [| x rows IH]; intros Hdup Hr Hr' Hkey.
  - by apply elem_of_nil in Hr.
  - rewrite fmap_cons in Hdup. apply list.NoDup_cons in Hdup as [Hx Hdup].
    apply elem_of_cons in Hr as [-> | Hr], Hr' as [-> | Hr'].
    + done.
    + destruct Hx. rewrite Hkey. by apply list_elem_of_fmap_2.
    + destruct Hx. rewrite <- Hkey. by apply list_elem_of_fmap_2.
    + by apply IH.
Qed.

Lemma update_update_id {A} (key : A → Z) id (f g : A → A) (rows : list A) :
  (∀ r, key (f r) = key r) →
  (∀ r, r ∈ rows → key r = id → g (f r) = r) →
  Sql.update key id g (Sql.update key id f rows) = rows.
Proof.
  intros Hf Hgf. unfold Sql.update.
  induction rows as [| r rows IH]; [done |].
  rewrite !fmap_cons. f_equal.
  - destruct (decide (key r = id)) as [Hr | Hr].
    + rewrite decide_True by (by rewrite Hf). apply Hgf; [by left | done].
    + by rewrite decide_False.
  - apply IH. intros r' Hr'. apply Hgf. by right.
Qed.

(** A second toggle brings [is_complete] back, but not always the item:
    an item that was complete comes out credited to the second user at the
    second time, whoever completed it before; an item that was incomplete,
    with no completion fields, comes out as it was, and with it the whole
    table when the keys of the items are unique. *)
Theorem toggle_twice db u utcnow u' utcnow' id item checklist card lst board :
  Sql.get TrelloChecklistItem.id id (checklist_items db) = Some item →
  Sql.get TrelloChecklist.id (TrelloChecklistItem.checklist_id item)
          (checklists db) = Some checklist →
  Sql.get TrelloCard.id (TrelloChecklist.card_id checklist) (cards db) = Some card →
  Sql.get TrelloList.id (TrelloCard.list_id card) (lists db) = Some lst →
  Sql.get TrelloBoard.id (TrelloList.board_id lst) (boards db) = Some board →
  can_edit db board u = true →
  can_edit db board u' = true →
  ∃ item'',
    Sql.get TrelloChecklistItem.id id
      (checklist_items
         (serve (toggle_checklist_item u' utcnow' id)
                (serve (toggle_checklist_item u utcnow id) db).2).2)
    = Some item''
    ∧ TrelloChecklistItem.is_complete item''
      = TrelloChecklistItem.is_complete item
    ∧ (TrelloChecklistItem.is_complete item = true →
       TrelloChecklistItem.completed_by item'' = Some u'
       ∧ TrelloChecklistItem.completed_at item'' = Some utcnow')
    ∧ (TrelloChecklistItem.is_complete item = false →
       TrelloChecklistItem.completed_by item = None →
       TrelloChecklistItem.completed_at item = None →
       item'' = item
       ∧ (NoDup (TrelloChecklistItem.id <$> checklist_items db) →
          checklist_items
            (serve (toggle_checklist_item u' utcnow' id)
                   (serve (toggle_checklist_item u utcnow id) db).2).2
          = checklist_items db)).
Proof.
  intros Hi Hc Hcard Hl Hb He He'.
  destruct (toggle_checklist_item_allowed
              db u utcnow id item checklist card lst board Hi Hc Hcard Hl Hb He)
    as (progress & ->).
  cbn [snd]. set (db1 := set_checklist_items _ db).
  assert (Hi1 : Sql.get TrelloChecklistItem.id id (checklist_items db1)
                = Some (toggle u utcnow item)).
  { unfold db1. cbn [checklist_items set_checklist_items].
    rewrite get_update by done. by rewrite Hi. }
  destruct (toggle_checklist_item_allowed
              db1 u' utcnow' id (toggle u utcnow item) checklist card lst board
              Hi1 Hc Hcard Hl Hb He')
    as (progress' & ->).
  unfold db1. cbn [snd checklist_items set_checklist_items].
  exists (toggle u' utcnow' (toggle u utcnow item)).
  split; [rewrite !get_update by done; by rewrite Hi |].
  assert (Hback : TrelloChecklistItem.is_complete item = false →
                  TrelloChecklistItem.completed_by item = None →
                  TrelloChecklistItem.completed_at item = None →
                  toggle u' utcnow' (toggle u utcnow item) = item).
  { intros Hf Hby Hat. destruct item. simpl in *. subst. reflexivity. }
  split; [| split].
  - simpl. apply negb_involutive.
  - intros Ht. simpl. by rewrite Ht.
  - intros Hf Hby Hat. split; [by apply Hback |].
    intros Hdup. apply update_update_id; [done |].
    intros r Hr Hid.
    apply get_Some in Hi as [Hid' Hin].
    rewrite (unique_row TrelloChecklistItem.id (checklist_items db) r item)
      by (done || congruence).
    by apply Hback.
Qed.

Lemma toggle_twice_witness :
  can_edit Demo.db Demo.private_board 3 = true
  ∧ can_edit Demo.db Demo.private_board 4 = true
  ∧ NoDup (TrelloChecklistItem.id <$> checklist_items Demo.db)
  ∧ checklist_items
      (serve (toggle_checklist_item 4 600 1)
             (serve (toggle_checklist_item 3 500 1) Demo.db).2).2
    = checklist_items Demo.db.
Proof.
  assert (Hdup : NoDup (TrelloChecklistItem.id <$> checklist_items Demo.db)).
  { simpl. apply NoDup_singleton. }
  destruct (toggle_twice Demo.db 3 500 4 600 1 _ _ _ _ _
              eq_refl eq_refl eq_refl eq_refl eq_refl eq_refl eq_refl)
    as (item'' & _ & _ & _ & Hback).
  split; [reflexivity | split; [reflexivity | split; [exact Hdup |]]].
  exact (proj2 (Hback eq_refl eq_refl eq_refl) Hdup).
Defined.

(** ** Positions *)

Lemma filter_update_ne {A} (key : A → Z) id (f : A → A) (rows : list A) :
  (∀ r, key (f r) = key r) →
  filter (λ r, key r ≠ id) (Sql.update key id f rows)
  = filter (λ r, key r ≠ id) rows.
Proof.
  intros Hf. unfold Sql.update.
  induction rows as [| r rows IH]; [done |].
  rewrite fmap_cons, !filter_cons.
  destruct (decide (key r = id)) as [Hr | Hr].
  - rewrite Hf, !decide_False by (by intros H). exact IH.
  - rewrite !decide_True by done. by rewrite IH.
Qed.

(** Moving a list stores the position of the request on that list, 0 when
    the request names none, and touches nothing else: every other list is
    as it was, so positions are neither renumbered nor kept apart, and no
    activity is logged.  A position that is no storable integer is not
    stored: the commit raises and the store is left as it was. *)
Theorem move_list_sets_position db u id position lst board :
  Sql.get TrelloList.id id (lists db) = Some lst →
  Sql.get TrelloBoard.id (TrelloList.board_id lst) (boards db) = Some board →
  can_edit db board u = true →
  (storable_value (json_get 0 position) = true →
   (serve (move_list u id position) db).1 = success
   ∧ Sql.get TrelloList.id id (lists (serve (move_list u id position) db).2)
     = Some (set_list_position (json_get 0 position) lst)
   ∧ filter (λ l, TrelloList.id l ≠ id)
            (lists (serve (move_list u id position) db).2)
     = filter (λ l, TrelloList.id l ≠ id) (lists db)
   ∧ activities (serve (move_list u id position) db).2 = activities db)
  ∧ (position = None →
     TrelloList.position
       <$> Sql.get TrelloList.id id (lists (serve (move_list u id position) db).2)
     = Some (Some 0))
  ∧ (storable_value (json_get 0 position) = false →
     serve (move_list u id position) db = (unhandled "OverflowError", db)).
Proof.
  intros Hl Hb He.
  assert (Hrun : serve (move_list u id position) db
                 = if storable_value (json_get 0 position)
                   then (success,
                         set_lists (Sql.update TrelloList.id id
                                      (set_list_position (json_get 0 position)))
                                   db)
                   else (unhandled "OverflowError", db)).
  { unfold move_list, storable_value. run_view. rewrite Hl. simpl. rewrite Hb.
    simpl. rewrite He. simpl.
    destruct (json_get 0 position) as [n |]; simpl; [| done].
    by destruct (storable n). }
  rewrite Hrun. split; [| split].
  - intros ->. cbn [fst snd lists set_lists activities].
    rewrite get_update, Hl by done.
    split; [done |]. split; [done |].
    split; [by apply filter_update_ne | done].
  - intros ->. cbn [json_get storable_value].
    replace (storable 0) with true by reflexivity.
    cbn [snd lists set_lists]. by rewrite get_update, Hl.
  - by intros ->.
Qed.

Lemma move_list_sets_position_witness :
  can_edit Demo.db Demo.private_board 3 = true
  ∧ Sql.get TrelloList.id 1
      (lists (serve (move_list 3 1 (Some (Some 4))) Demo.db).2)
    = Some (Demo.list_of 1 1 "To Do" (Some 4))
  ∧ activities (serve (move_list 3 1 (Some (Some 4))) Demo.db).2
    = activities Demo.db
  ∧ serve (move_list 3 1 (Some (Some (2 ^ 63)))) Demo.db
    = (unhandled "OverflowError", Demo.db).
Proof.
  destruct (move_list_sets_position Demo.db 3 1 (Some (Some 4))
              (Demo.list_of 1 1 "To Do" (Some 0)) Demo.private_board
              eq_refl eq_refl eq_refl) as (Hstored & _ & _).
  destruct (Hstored eq_refl) as (_ & Hget & _ & Hlog).
  split; [reflexivity | split; [exact Hget | split; [exact Hlog |]]].
  exact (proj2 (proj2 (move_list_sets_position Demo.db 3 1 (Some (Some (2 ^ 63)))
                         (Demo.list_of 1 1 "To Do" (Some 0)) Demo.private_board
                         eq_refl eq_refl eq_refl)) eq_refl).
Defined.

(** The list moved above now shares position 4 with another list of the
    board. *)
Example move_list_collision :
  (TrelloList.position <$>
     lists (serve (move_list 3 1 (Some (Some 4))) Demo.db).2)
  = [Some 4; Some 4; Some 0].
Proof. vm_compute. reflexivity. Qed.

Lemma move_card_same_board_run db u id data target card lst board new_list :
  Sql.get TrelloCard.id id (cards db) = Some card →
  Sql.get TrelloList.id (TrelloCard.list_id card) (lists db) = Some lst →
  Sql.get TrelloBoard.id (TrelloList.board_id lst) (boards db) = Some board →
  can_edit db board u = true →
  data_list_id data = Some target →
  Sql.get TrelloList.id target (lists db) = Some new_list →
  TrelloList.board_id new_list = TrelloList.board_id lst →
  serve (move_card u id data) db
  = if storable_move data
    then
      (success,
       match data_position data with
       | Some position =>
           set_cards (Sql.update TrelloCard.id id (set_card_position position))
       | None => λ db, db
       end
         (set_activities
            (λ rows, rows ++
               [{| TrelloActivity.id :=
                     Sql.next_id (TrelloActivity.id <$> activities db);
                   TrelloActivity.board_id := TrelloBoard.id board;
                   TrelloActivity.user_id := Some u;
                   TrelloActivity.action := "moved_card";
                   TrelloActivity.target_type := Some "card";
                   TrelloActivity.target_id := Some id;
                   TrelloActivity.details :=
                     Some [("from", TrelloList.name lst);
                           ("to", TrelloList.name new_list)] |}])
            (set_cards (Sql.update TrelloCard.id id (set_card_list_id target)) db)))
    else (unhandled "OverflowError", db).
Proof.
  intros Hc Hl Hb He Ht Hn Hsame.
  unfold move_card, storable_move, storable_value. run_view.
  rewrite Hc. simpl. rewrite Hl. simpl. rewrite Hb. simpl. rewrite He. simpl.
  rewrite Ht. simpl. destruct (storable target); simpl; [| done].
  rewrite Hn. simpl.
  apply get_Some in Hb as [Hbid _]. apply get_Some in Hn as [Hnid _].
  rewrite decide_True by congruence. simpl. rewrite Hnid.
  destruct (data_position data) as [[position |] |]; simpl; try done.
  by destruct (storable position).
Qed.

(** Moving a card to a list of its own board puts the card into that list,
    at the position of the request if it names one and at its old position
    otherwise; every other card is as it was, and one moved_card entry
    with the names of the two lists is logged.  A request with an integer
    that the driver cannot bind moves nothing: it ends in the error of the
    driver, and neither the new list nor the position nor the entry is
    stored. *)
Theorem move_card_same_board_moves db u id data target card lst board new_list :
  Sql.get TrelloCard.id id (cards db) = Some card →
  Sql.get TrelloList.id (TrelloCard.list_id card) (lists db) = Some lst →
  Sql.get TrelloBoard.id (TrelloList.board_id lst) (boards db) = Some board →
  can_edit db board u = true →
  data_list_id data = Some target →
  Sql.get TrelloList.id target (lists db) = Some new_list →
  TrelloList.board_id new_list = TrelloList.board_id lst →
  (storable_move data = true →
   ∃ card' entry,
     (serve (move_card u id data) db).1 = success
     ∧ Sql.get TrelloCard.id id (cards (serve (move_card u id data) db).2)
       = Some card'
     ∧ TrelloCard.list_id card' = target
     ∧ TrelloCard.position card'
       = default (TrelloCard.position card) (data_position data)
     ∧ TrelloCard.title card' = TrelloCard.title card
     ∧ filter (λ c, TrelloCard.id c ≠ id)
              (cards (serve (move_card u id data) db).2)
       = filter (λ c, TrelloCard.id c ≠ id) (cards db)
     ∧ activities (serve (move_card u id data) db).2 = activities db ++ [entry]
     ∧ TrelloActivity.action entry = "moved_card"
     ∧ TrelloActivity.details entry
       = Some [("from", TrelloList.name lst); ("to", TrelloList.name new_list)])
  ∧ (storable_move data = false →
     serve (move_card u id data) db = (unhandled "OverflowError", db)).
Proof.
  intros Hc Hl Hb He Ht Hn Hsame.
  rewrite (move_card_same_board_run db u id data target card lst board new_list
             Hc Hl Hb He Ht Hn Hsame).
  split; intros ->; [| done].
  cbn [fst snd].
  destruct (data_position data) as [position |];
    cbn [cards set_cards activities set_activities default];
    eexists _, _; (split; [reflexivity |]); rewrite ?get_update, Hc by done;
    (split; [reflexivity |]);
    rewrite ?filter_update_ne by done; by repeat split.
Qed.

Lemma move_card_same_board_moves_witness :
  can_edit Demo.db Demo.private_board 3 = true
  ∧ TrelloList.board_id (Demo.list_of 2 1 "Done" (Some 4))
    = TrelloList.board_id (Demo.list_of 1 1 "To Do" (Some 0))
  ∧ (∃ card',
       Sql.get TrelloCard.id 1
         (cards (serve (move_card 3 1 {| data_list_id := Some 2;
                                         data_position := None |}) Demo.db).2)
       = Some card'
       ∧ TrelloCard.list_id card' = 2
       ∧ TrelloCard.position card' = Some 1)
  ∧ serve (move_card 3 1 {| data_list_id := Some 2;
                            data_position := Some (Some (2 ^ 63)) |}) Demo.db
    = (unhandled "OverflowError", Demo.db).
Proof.
  destruct (proj1 (move_card_same_board_moves Demo.db 3 1
              {| data_list_id := Some 2; data_position := None |} 2
              (Demo.card_of 1 1 "Write rota" (Some 1) (Some 100) false)
              (Demo.list_of 1 1 "To Do" (Some 0)) Demo.private_board
              (Demo.list_of 2 1 "Done" (Some 4))
              eq_refl eq_refl eq_refl eq_refl eq_refl eq_refl eq_refl) eq_refl)
    as (card' & entry & _ & Hget & Hlist & Hpos & _).
  split; [reflexivity | split; [reflexivity | split]].
  - exists card'. split; [exact Hget | split; [exact Hlist | exact Hpos]].
  - exact (proj2 (move_card_same_board_moves Demo.db 3 1
              {| data_list_id := Some 2; data_position := Some (Some (2 ^ 63)) |} 2
              (Demo.card_of 1 1 "Write rota" (Some 1) (Some 100) false)
              (Demo.list_of 1 1 "To Do" (Some 0)) Demo.private_board
              (Demo.list_of 2 1 "Done" (Some 4))
              eq_refl eq_refl eq_refl eq_refl eq_refl eq_refl eq_refl) eq_refl).
Defined.

(** ** The index *)

Section Index.
Variable db : DB.
Variable u : Z.

Lemma index_member_boards_row (b : TrelloBoard.t) :
  TrelloBoard.id b ∈
    (BoardMember.board_id <$>
       filter (λ r, BoardMember.user_id r = u) (board_members db))
  ↔ explicit_member db b u.
Proof.
  unfold explicit_member. rewrite list_elem_of_fmap. split.
  - intros (r & Hid & Hr). apply list_elem_of_filter in Hr as [Hu Hr].
    by exists r.
  - intros (r & Hr & Hid & Hu). exists r. split; [done |].
    by apply list_elem_of_filter.
Qed.
End Index.

(** The index shows a user of the system the boards that are not archived
    and that the user can view, and no other board, when the keys of the
    boards are unique; and no board is shown in two of its three lists. *)
Theorem index_shows_viewable_boards db u :
  known_user db u →
  NoDup (TrelloBoard.id <$> boards db) →
  (∀ b, b ∈ my_boards (index u db) ++ member_boards (index u db)
              ++ public_boards (index u db)
        ↔ b ∈ boards db
          ∧ TrelloBoard.is_archived b = false
          ∧ can_view db b u = true)
  ∧ (∀ b, b ∈ my_boards (index u db) → b ∉ member_boards (index u db))
  ∧ (∀ b, b ∈ my_boards (index u db) → b ∉ public_boards (index u db))
  ∧ (∀ b, b ∈ member_boards (index u db) → b ∉ public_boards (index u db)).
Proof.
  intros Hknown Hdup. unfold index. cbn [my_boards member_boards public_boards].
  split; [| split; [| split]]; intros b.
  - rewrite !elem_of_app, !list_elem_of_filter, index_member_boards_row.
    split.
    + intros [[[Hc Ha] Hb] | [[Hnc [[Hm Ha] Hb]] | [Hn [[Hp Ha] Hb]]]];
        (split; [done | split; [done |]]).
      * unfold can_view. destruct (TrelloBoard.is_private b); [simpl | done].
        apply orb_true_iff. right. by apply bool_decide_eq_true.
      * unfold can_view. destruct (TrelloBoard.is_private b); [simpl | done].
        apply orb_true_iff. left. apply bool_decide_eq_true, members_ids.
        by split.
      * unfold can_view. by rewrite Hp.
    + intros (Hb & Ha & Hv).
      destruct (decide (TrelloBoard.created_by b = Some u)) as [Hc | Hc];
        [by left |].
      right.
      destruct (decide (TrelloBoard.id b ∈
                  (BoardMember.board_id <$>
                     filter (λ r, BoardMember.user_id r = u) (board_members db))))
        as [Hm | Hm]; rewrite index_member_boards_row in Hm; [by left |].
      right. split; [| split; [split |]]; try done.
      * rewrite fmap_app, elem_of_app, !list_elem_of_fmap.
        intros [(b' & Hid & Hb') | (b' & Hid & Hb')];
          apply list_elem_of_filter in Hb' as [HP Hin];
          rewrite (unique_row TrelloBoard.id (boards db) b b' Hdup Hb Hin Hid)
            in *.
        -- by destruct HP.
        -- destruct HP as [HP _]. by apply index_member_boards_row in HP.
      * unfold can_view in Hv.
        destruct (TrelloBoard.is_private b); [simpl in Hv | done].
        apply orb_true_iff in Hv as [Hv | Hv]; apply bool_decide_eq_true in Hv.
        -- apply members_ids in Hv as [_ Hv]. by destruct Hm.
        -- by destruct Hc.
  - rewrite !list_elem_of_filter. by intros [[Hc _] _] [Hnc _].
  - rewrite !list_elem_of_filter. intros Hmy [Hn _]. apply Hn.
    apply list_elem_of_fmap_2, elem_of_app. left.
    by apply list_elem_of_filter.
  - rewrite !list_elem_of_filter. intros [_ Hm] [Hn _]. apply Hn.
    apply list_elem_of_fmap_2, elem_of_app. right.
    by apply list_elem_of_filter.
Qed.

Lemma index_shows_viewable_boards_witness :
  known_user Demo.db 3
  ∧ NoDup (TrelloBoard.id <$> boards Demo.db)
  ∧ Demo.private_board
    ∈ my_boards (index 3 Demo.db) ++ member_boards (index 3 Demo.db)
      ++ public_boards (index 3 Demo.db).
Proof.
  assert (Hknown : known_user Demo.db 3)
    by (unfold known_user; apply (bool_decide_unpack _); vm_compute; exact I).
  assert (Hdup : NoDup (TrelloBoard.id <$> boards Demo.db))
    by (apply (bool_decide_unpack _); vm_compute; exact I).
  split; [exact Hknown | split; [exact Hdup |]].
  apply (proj1 (index_shows_viewable_boards Demo.db 3 Hknown Hdup)).
  split; [apply list_elem_of_here | split; reflexivity].
Defined.

(** What the index hands to each user of the examples. *)
Example index_on_demo :
  (TrelloBoard.id <$> my_boards (index 2 Demo.db)) = [2]
  ∧ (TrelloBoard.id <$> member_boards (index 2 Demo.db)) = [1]
  ∧ (TrelloBoard.id <$> public_boards (index 2 Demo.db)) = []
  ∧ (TrelloBoard.id <$> public_boards (index 3 Demo.db)) = [2].
Proof. vm_compute. repeat split. Qed.

Lemma update_elem_of_cases {A} (key : A → Z) id (f : A → A) (rows : list A) r' :
  r' ∈ Sql.update key id f rows →
  (r' ∈ rows ∧ key r' ≠ id) ∨ ∃ r, r ∈ rows ∧ key r = id ∧ r' = f r.
Proof.
  unfold Sql.update. intros H.
  apply list_elem_of_fmap in H as (r & -> & Hr).
  destruct (decide (key r = id)); [right; by exists r | by left].
Qed.

(** An owner who archives a board takes it off the index of every user and
    deletes nothing: the board is kept with its flag set, its lists and
    cards are as they were, and one archived_board entry is logged. *)
Theorem archive_board_hides db u id board :
  Sql.get TrelloBoard.id id (boards db) = Some board →
  is_owner db board u = true →
  (serve_reply (archive_board u id) db).1 = redirect_url_for "trello.index"
  ∧ (∀ u' b,
       b ∈ my_boards (index u' (serve_reply (archive_board u id) db).2)
           ++ member_boards (index u' (serve_reply (archive_board u id) db).2)
           ++ public_boards (index u' (serve_reply (archive_board u id) db).2) →
       TrelloBoard.id b ≠ id)
  ∧ Sql.get TrelloBoard.id id (boards (serve_reply (archive_board u id) db).2)
    = Some (set_board_is_archived true board)
  ∧ lists (serve_reply (archive_board u id) db).2 = lists db
  ∧ cards (serve_reply (archive_board u id) db).2 = cards db
  ∧ board_members (serve_reply (archive_board u id) db).2 = board_members db
  ∧ ∃ entry,
      activities (serve_reply (archive_board u id) db).2
      = activities db ++ [entry]
      ∧ TrelloActivity.action entry = "archived_board".
Proof.
  intros Hb Ho.
  assert (Hrun : ∃ entry,
    serve_reply (archive_board u id) db
    = (redirect_url_for "trello.index",
       set_activities (λ rows, rows ++ [entry])
         (set_boards (Sql.update TrelloBoard.id id (set_board_is_archived true))
                     db))
    ∧ TrelloActivity.action entry = "archived_board").
  { unfold archive_board. run_reply. rewrite Hb. simpl. rewrite Ho. simpl.
    by eexists. }
  destruct Hrun as (entry & -> & Haction). cbn [fst snd].
  split; [done |]. split; [| split; [| split; [| split; [| split]]]].
  - intros u' b. unfold index.
    cbn [my_boards member_boards public_boards boards set_boards
         set_activities].
    rewrite !elem_of_app, !list_elem_of_filter.
    assert (Harchived : ∀ b, b ∈ Sql.update TrelloBoard.id id
                                   (set_board_is_archived true) (boards db) →
                             TrelloBoard.is_archived b = false →
                             TrelloBoard.id b ≠ id).
    { intros b' Hb' Ha.
      apply update_elem_of_cases in Hb' as [[_ ?] | (r & _ & _ & ->)];
        [done | discriminate Ha]. }
    intros [[[_ Ha] Hin] | [[_ [[_ Ha] Hin]] | [_ [[_ Ha] Hin]]]];
      by apply Harchived.
  - cbn [boards set_boards set_activities].
    rewrite get_update by done. by rewrite Hb.
  - done.
  - done.
  - done.
  - by exists entry.
Qed.

Lemma archive_board_hides_witness :
  is_owner Demo.db Demo.public_board 2 = true
  ∧ (TrelloBoard.is_archived <$>
       Sql.get TrelloBoard.id 2
         (boards (serve_reply (archive_board 2 2) Demo.db).2))
    = Some true
  ∧ lists (serve_reply (archive_board 2 2) Demo.db).2 = lists Demo.db.
Proof.
  destruct (archive_board_hides Demo.db 2 2 Demo.public_board eq_refl eq_refl)
    as (_ & _ & Hget & Hlists & _).
  split; [reflexivity | split; [by rewrite Hget | exact Hlists]].
Defined.

(** ** Invariants of the store *)

Lemma create_board_effect db u method form :
  (serve (create_board u method form) db).2 = db
  ∨ ∃ board entry,
      (serve (create_board u method form) db).2
      = set_activities (λ rows, rows ++ [entry])
          (set_lists
             (add_all TrelloList.id
                (λ '(i, name) id,
                   {| TrelloList.id := id;
                      TrelloList.board_id := TrelloBoard.id board;
                      TrelloList.name := name;
                      TrelloList.position := Some i;
                      TrelloList.is_archived := false |})
                (enumerate default_lists))
             (set_labels
                (add_all TrelloLabel.id
                   (λ '(name, color) id,
                      {| TrelloLabel.id := id;
                         TrelloLabel.board_id := TrelloBoard.id board;
                         TrelloLabel.name := name;
                         TrelloLabel.color := color |})
                   default_labels)
                (set_boards (λ rows, rows ++ [board]) db)))
      ∧ TrelloBoard.id board = Sql.next_id (TrelloBoard.id <$> boards db)
      ∧ TrelloActivity.id entry = Sql.next_id (TrelloActivity.id <$> activities db)
      ∧ TrelloActivity.board_id entry = TrelloBoard.id board.
Proof.
  destruct method; [by left |].
  destruct (form_name form) as [name |] eqn:Hname;
    [| left; by rewrite create_board_without_name].
  right. unfold serve, create_board. rewrite Hname.
  rewrite (bind_next _ _ _ _ _ (add_next _ _ _ _ _)). cbn [stored pending].
  erewrite bind_next by apply for_each_add_labels. cbn [stored pending].
  erewrite bind_next by apply for_each_add_lists. cbn [stored pending].
  erewrite bind_next by reflexivity.
  erewrite bind_next by reflexivity.
  eexists (TrelloBoard.Build_t (Sql.next_id (TrelloBoard.id <$> boards db))
             _ _ _ _ _ _), _.
  split; [reflexivity |]. repeat split.
Qed.

Lemma fmap_update_key {A} (key : A → Z) id (f : A → A) (rows : list A) :
  (∀ r, key (f r) = key r) →
  key <$> Sql.update key id f rows = key <$> rows.
Proof.
  intros Hf. unfold Sql.update. rewrite <- list_fmap_compose.
  apply list_fmap_ext. intros i r _. simpl.
  by destruct (decide (key r = id)).
Qed.

Lemma nodup_fmap_snoc {A} (key : A → Z) (rows : list A) r :
  NoDup (key <$> rows) →
  key r = Sql.next_id (key <$> rows) →
  NoDup (key <$> (rows ++ [r])).
Proof.
  intros Hdup Hr. rewrite fmap_app. apply list.NoDup_app.
  split; [done |]. split; [| apply list.NoDup_singleton].
  intros k Hk Hin. apply list_elem_of_singleton in Hin as ->.
  apply (next_id_fresh (key <$> rows)). by rewrite <- Hr.
Qed.

Lemma nodup_fmap_filter {A B} (f : A → B) (P : A → Prop)
    `{!∀ x, Decision (P x)} (rows : list A) :
  NoDup (f <$> rows) → NoDup (f <$> filter P rows).
Proof.
  induction rows as [| r rows IH]; [done |].
  rewrite fmap_cons, filter_cons. intros [Hr Hdup]%list.NoDup_cons.
  destruct (decide (P r)); [| by apply IH].
  rewrite fmap_cons. apply list.NoDup_cons. split; [| by apply IH].
  intros Hin. apply Hr.
  apply list_elem_of_fmap in Hin as (r' & -> & Hr').
  apply list_elem_of_filter in Hr' as [_ Hr'].
  by apply list_elem_of_fmap_2.
Qed.

Lemma nodup_fmap_add_all {A B} (key : A → Z) (row : B → Z → A) xs rows :
  (∀ x id, key (row x id) = id) →
  NoDup (key <$> rows) →
  NoDup (key <$> add_all key row xs rows).
Proof.
  intros Hkey. unfold add_all. revert rows.
  induction xs as [| x xs IH]; intros rows Hdup; [done |].
  simpl. apply IH. by apply nodup_fmap_snoc.
Qed.

Lemma filter_ext_in {A} (P Q : A → Prop)
    `{!∀ x, Decision (P x), !∀ x, Decision (Q x)} (l : list A) :
  (∀ x, x ∈ l → P x ↔ Q x) → filter P l = filter Q l.
Proof.
  induction l as [| x l IH]; intros Hext; [done |].
  rewrite !filter_cons.
  destruct (decide (P x)) as [HP | HP].
  - rewrite decide_True by (apply Hext; [by left | done]).
    f_equal. apply IH. intros y Hy. apply Hext. by right.
  - rewrite decide_False by (intros HQ; apply HP, Hext; [by left | done]).
    apply IH. intros y Hy. apply Hext. by right.
Qed.

Lemma keys_unique_step current_user utcnow req db :
  keys_unique db → keys_unique (handle current_user utcnow req db).
Proof.
  intros Hkeys.
  assert (Hkeys' := Hkeys).
  destruct Hkeys' as (Hb & Hl & Hc & Hlb & Hcm & Hcl & Hi & Ha & Hm).
  destruct req; unfold handle.
  1: { destruct (create_board_effect db (User.id current_user) method form)
         as [-> | (board & entry & -> & Hid & Heid & _)]; [done |].
       unfold keys_unique. tables. repeat split; try done.
       - by apply nodup_fmap_snoc.
       - by apply nodup_fmap_add_all; [intros [] ? |].
       - by apply nodup_fmap_add_all; [intros [] ? |].
       - by apply nodup_fmap_snoc. }
  18: { unfold add_board_member. run_view. outcomes; [| done].
        unfold keys_unique. tables. repeat split; try done.
        rewrite fmap_app. apply list.NoDup_app.
        split; [done |]. split; [| apply list.NoDup_singleton].
        intros p Hp Hin. apply list_elem_of_singleton in Hin as ->.
        apply list_elem_of_fmap in Hp as (r & [= Hrb Hru] & Hr).
        match goal with
        | H : bool_decide _ = false |- _ =>
            apply bool_decide_eq_false in H; destruct H
        end.
        match goal with
        | H : _ ≫= _ = Some _ |- _ =>
            apply bind_Some in H as (? & _ & H); apply get_Some in H as [_ H]
        end.
        apply members_ids. split.
        - by apply list_elem_of_fmap_2.
        - by exists r. }
  all: unfold edit_board, archive_board, delete_board, create_list, rename_list,
         archive_list, move_list, create_card, move_card, archive_card,
         delete_card, add_comment, request_json, delete_comment, add_checklist,
         add_checklist_item, toggle_checklist_item, delete_checklist,
         remove_board_member, serve_reply;
       run_view; outcomes;
       unfold keys_unique, delete_board_rows, delete_list_rows,
         delete_card_rows, delete_checklist_rows, Sql.delete;
       tables; repeat split;
       repeat first
         [ done
         | rewrite fmap_update_key by done
         | apply nodup_fmap_filter
         | apply nodup_fmap_snoc; [| reflexivity] ].
Qed.

Section References.
Context {A B : Type} (fk : A → Z) (key : B → Z).

Lemma refs_snoc_targets (rows : list A) (T : list B) t :
  (∀ r, r ∈ rows → fk r ∈ key <$> T) →
  ∀ r, r ∈ rows → fk r ∈ key <$> (T ++ [t]).
Proof.
  intros H r Hr. rewrite fmap_app. apply elem_of_app. left. by apply H.
Qed.

Lemma refs_add_all_targets {C} (row : C → Z → B) xs (rows : list A) (T : list B) :
  (∀ r, r ∈ rows → fk r ∈ key <$> T) →
  ∀ r, r ∈ rows → fk r ∈ key <$> add_all key row xs T.
Proof.
  unfold add_all. revert T.
  induction xs as [| x xs IH]; intros T H; [done |].
  simpl. apply IH. by apply refs_snoc_targets.
Qed.

Lemma refs_update_targets id (f : B → B) (rows : list A) (T : list B) :
  (∀ t, key (f t) = key t) →
  (∀ r, r ∈ rows → fk r ∈ key <$> T) →
  ∀ r, r ∈ rows → fk r ∈ key <$> Sql.update key id f T.
Proof. intros Hf H r Hr. rewrite fmap_update_key by done. by apply H. Qed.

Lemma refs_snoc_rows (rows : list A) (T : list B) r' :
  fk r' ∈ key <$> T →
  (∀ r, r ∈ rows → fk r ∈ key <$> T) →
  ∀ r, r ∈ rows ++ [r'] → fk r ∈ key <$> T.
Proof.
  intros Hr' H r Hr. apply elem_of_app in Hr as [Hr | Hr]; [by apply H |].
  by apply list_elem_of_singleton in Hr as ->.
Qed.

Lemma refs_update_same (k : A → Z) id (f : A → A) (rows : list A) (T : list B) :
  (∀ r, fk (f r) = fk r) →
  (∀ r, r ∈ rows → fk r ∈ key <$> T) →
  ∀ r, r ∈ Sql.update k id f rows → fk r ∈ key <$> T.
Proof.
  intros Hf Hrefs r Hr.
  apply update_elem_of in Hr as [Hr | (r0 & Hr0 & _ & ->)];
    [| rewrite Hf]; by apply Hrefs.
Qed.

Lemma refs_update_const (k : A → Z) id (f : A → A) (rows : list A) (T : list B) :
  (∀ r, fk (f r) ∈ key <$> T) →
  (∀ r, r ∈ rows → fk r ∈ key <$> T) →
  ∀ r, r ∈ Sql.update k id f rows → fk r ∈ key <$> T.
Proof.
  intros Hf Hrefs r Hr.
  apply update_elem_of in Hr as [Hr | (r0 & Hr0 & _ & ->)];
    [by apply Hrefs | apply Hf].
Qed.

Lemma refs_add_all_rows {C} (k : A → Z) (row : C → Z → A) xs (rows : list A)
    (T : list B) :
  (∀ x id, fk (row x id) ∈ key <$> T) →
  (∀ r, r ∈ rows → fk r ∈ key <$> T) →
  ∀ r, r ∈ add_all k row xs rows → fk r ∈ key <$> T.
Proof.
  intros Hrow. unfold add_all. revert rows.
  induction xs as [| x xs IH]; intros rows Hrefs; [done |].
  simpl. apply IH. by apply refs_snoc_rows.
Qed.

Lemma refs_filter_rows (P : A → Prop) `{!∀ r, Decision (P r)}
    (rows : list A) (T : list B) :
  (∀ r, r ∈ rows → fk r ∈ key <$> T) →
  ∀ r, r ∈ filter P rows → fk r ∈ key <$> T.
Proof.
  intros Hrefs r Hr. apply list_elem_of_filter in Hr as [_ Hr]. by apply Hrefs.
Qed.

Lemma refs_filter_both (P : A → Prop) (Q : B → Prop)
    `{!∀ r, Decision (P r), !∀ t, Decision (Q t)} (rows : list A) (T : list B) :
  (∀ r t, r ∈ rows → P r → t ∈ T → key t = fk r → Q t) →
  (∀ r, r ∈ rows → fk r ∈ key <$> T) →
  ∀ r, r ∈ filter P rows → fk r ∈ key <$> filter Q T.
Proof.
  intros HPQ Hrefs r Hr. apply list_elem_of_filter in Hr as [HP Hr].
  destruct (list_elem_of_fmap_1 _ _ _ (Hrefs r Hr)) as (t & Hkey & Ht).
  rewrite Hkey. apply list_elem_of_fmap_2, list_elem_of_filter.
  split; [| done]. by apply (HPQ r t).
Qed.
End References.

Lemma references_delete_checklist_rows ids db :
  references_hold db → references_hold (delete_checklist_rows ids db).
Proof.
  intros (Hm & Hl & Hlb & Ha & Hc & Hcm & Hcl & Hi & Hu).
  unfold references_hold, delete_checklist_rows. tables.
  repeat split; try done.
  - by apply refs_filter_rows.
  - apply refs_filter_both; [| done]. intros i c _ Hi' _ Hkey. by rewrite Hkey.
Qed.

Lemma references_delete_card_rows ids db :
  references_hold db → references_hold (delete_card_rows ids db).
Proof.
  intros (Hm & Hl & Hlb & Ha & Hc & Hcm & Hcl & Hi & Hu).
  unfold references_hold, delete_card_rows, delete_checklist_rows. tables.
  repeat split; try done.
  - by apply refs_filter_rows.
  - apply refs_filter_both; [| done]. intros c t _ Hc' _ Hkey. by rewrite Hkey.
  - apply refs_filter_both; [| done]. intros c t Hin Hc' _ Hkey Ht.
    apply Hc'. apply list_elem_of_fmap_2, list_elem_of_filter.
    split; [| done]. by rewrite <- Hkey.
  - apply refs_filter_both; [| done]. intros i c _ Hi' _ Hkey. by rewrite Hkey.
Qed.

(** With the users of the member rows in the store, the session loads
    every member of the board that is deleted: no row of the board stays. *)
Lemma delete_board_rows_members board db :
  (∀ r, r ∈ board_members db →
        BoardMember.board_id r = TrelloBoard.id board →
        BoardMember.user_id r ∈ (User.id <$> users db)) →
  board_members (delete_board_rows board db)
  = filter (λ r, BoardMember.board_id r ≠ TrelloBoard.id board) (board_members db).
Proof.
  intros Hu. unfold delete_board_rows, delete_list_rows, delete_card_rows,
    delete_checklist_rows. tables.
  apply filter_ext_in. intros r Hr. split.
  - intros Hkeep Hb. apply Hkeep. split; [done |].
    apply members_ids. split; [by apply Hu |]. by exists r.
  - intros Hb [Hb' _]. by apply Hb.
Qed.

Lemma references_delete_board_rows board db :
  references_hold db → references_hold (delete_board_rows board db).
Proof.
  intros (Hm & Hl & Hlb & Ha & Hc & Hcm & Hcl & Hi & Hu).
  assert (Hrows := delete_board_rows_members board db (λ r Hr _, Hu r Hr)).
  revert Hrows.
  unfold references_hold, delete_board_rows, delete_list_rows,
    delete_card_rows, delete_checklist_rows, Sql.delete. tables.
  intros Hrows. rewrite Hrows.
  repeat split.
  - apply refs_filter_both; [| done]. intros r b _ Hr _ Hkey. by rewrite Hkey.
  - apply refs_filter_both; [| done]. intros l b Hin Hl' _ Hkey Hb.
    apply Hl'. apply list_elem_of_fmap_2, list_elem_of_filter.
    split; [| done]. by rewrite <- Hkey.
  - apply refs_filter_both; [| done]. intros r b _ Hr _ Hkey. by rewrite Hkey.
  - apply refs_filter_both; [| done]. intros r b _ Hr _ Hkey. by rewrite Hkey.
  - apply refs_filter_both; [| done]. intros c l Hin Hc' _ Hkey Hl'.
    apply Hc'. apply list_elem_of_fmap_2, list_elem_of_filter.
    split; [| done]. by rewrite <- Hkey.
  - apply refs_filter_both; [| done]. intros c t _ Hc' _ Hkey. by rewrite Hkey.
  - apply refs_filter_both; [| done]. intros c t Hin Hc' _ Hkey Ht.
    apply Hc'. apply list_elem_of_fmap_2, list_elem_of_filter.
    split; [| done]. by rewrite <- Hkey.
  - apply refs_filter_both; [| done]. intros i c _ Hi' _ Hkey. by rewrite Hkey.
  - by apply refs_filter_rows.
Qed.

Lemma references_log db entry :
  TrelloActivity.board_id entry ∈ (TrelloBoard.id <$> boards db) →
  references_hold db →
  references_hold (set_activities (λ rows, rows ++ [entry]) db).
Proof.
  intros He (Hm & Hl & Hlb & Ha & Hc & Hcm & Hcl & Hi & Hu).
  unfold references_hold. tables. repeat split; try done.
  by apply refs_snoc_rows.
Qed.

Lemma get_Some_keys {A} (key : A → Z) id rows r :
  Sql.get key id rows = Some r →
  id ∈ (key <$> rows) ∧ key r ∈ (key <$> rows).
Proof.
  intros [Hkey Hin]%get_Some. rewrite <- Hkey.
  split; by apply list_elem_of_fmap_2.
Qed.

Lemma references_step current_user utcnow req db :
  references_hold db → references_hold (handle current_user utcnow req db).
Proof.
  intros Hrefs.
  assert (Hrefs' := Hrefs).
  destruct Hrefs' as (Hm & Hl & Hlb & Ha & Hc & Hcm & Hcl & Hi & Hu).
  destruct req; unfold handle.
  1: { destruct (create_board_effect db (User.id current_user) method form)
         as [-> | (board & entry & -> & Hid & Heid & Hbid)]; [done |].
       assert (Hnew : ∀ rows : list TrelloBoard.t,
                 TrelloBoard.id board ∈ TrelloBoard.id <$> (rows ++ [board])).
       { intros rows. rewrite fmap_app. apply elem_of_app. right. by left. }
       unfold references_hold. tables. repeat split.
       - by apply refs_snoc_targets.
       - apply refs_add_all_rows; [by intros [] ? |]. by apply refs_snoc_targets.
       - apply refs_add_all_rows; [by intros [] ? |]. by apply refs_snoc_targets.
       - apply refs_snoc_rows; [by rewrite Hbid |]. by apply refs_snoc_targets.
       - by apply refs_add_all_targets.
       - done.
       - done.
       - done.
       - done. }
  3: { unfold delete_board, serve_reply. run_view.
       outcomes; first [done | by apply references_delete_board_rows]. }
  10: { unfold delete_card. run_view.
        outcomes;
          first
            [ done
            | found (@get_Some_keys);
              (apply references_log; [| by apply references_delete_card_rows]);
              unfold delete_card_rows, delete_checklist_rows; by tables ]. }
  15: { unfold delete_checklist. run_view.
        outcomes; first [done | by apply references_delete_checklist_rows]. }
  all: unfold edit_board, archive_board, create_list, rename_list,
         archive_list, move_list, create_card, move_card, archive_card,
         add_comment, request_json, delete_comment, add_checklist,
         add_checklist_item, toggle_checklist_item,
         add_board_member, remove_board_member, serve_reply;
       run_view; outcomes; found (@get_Some_keys);
       unfold references_hold, Sql.delete; tables;
       rewrite ?fmap_update_key by done;
       repeat split;
       repeat first
         [ done
         | apply refs_snoc_targets
         | apply refs_filter_rows
         | apply refs_update_same; [done |]
         | apply refs_update_const; [done |]
         | apply refs_snoc_rows; [done |]
         | apply refs_snoc_rows;
           [ match goal with
             | H : _ ≫= _ = Some _ |- _ =>
                 apply bind_Some in H as (? & _ & H);
                 by apply get_Some_keys in H as [_ H]
             end |] ].
Qed.

Lemma completion_step current_user utcnow req db :
  (∀ i, i ∈ checklist_items db → completion_consistent i) →
  ∀ i, i ∈ checklist_items (handle current_user utcnow req db) →
       completion_consistent i.
Proof.
  intros Hinv.
  destruct req; unfold handle.
  1: { by destruct (create_board_effect db (User.id current_user) method form)
         as [-> | (board & entry & -> & _)]. }
  all: unfold edit_board, archive_board, delete_board, create_list, rename_list,
         archive_list, move_list, create_card, move_card, archive_card,
         delete_card, add_comment, request_json, delete_comment, add_checklist,
         add_checklist_item, toggle_checklist_item, delete_checklist,
         add_board_member, remove_board_member, serve_reply;
       run_view; outcomes;
       unfold delete_board_rows, delete_list_rows, delete_card_rows,
         delete_checklist_rows;
       tables; intros i Hi;
       repeat first
         [ by apply Hinv
         | apply list_elem_of_filter in Hi as [_ Hi]
         | apply update_elem_of in Hi as [Hi | (? & _ & _ & ->)];
           [| apply toggle_consistent]
         | apply elem_of_app in Hi as [Hi | ->%list_elem_of_singleton];
           [| by split] ].
Qed.

(** ** What holds of every store the requests lead to *)

Lemma handle_all_snoc trace current_user utcnow req db :
  handle_all (trace ++ [(current_user, utcnow, req)]) db
  = handle current_user utcnow req (handle_all trace db).
Proof. unfold handle_all. by rewrite foldl_app. Qed.

(** No request leaves a row that refers to a missing row: if the
    references between boards, members, lists, labels, activities, cards,
    comments, checklists and items hold, they hold after every sequence of
    requests, deletions with their cascades included. *)
Theorem references_hold_always trace db :
  references_hold db → references_hold (handle_all trace db).
Proof.
  intros Hrefs. induction trace as [| [[current_user utcnow] req] trace IH]
    using rev_ind; [done |].
  rewrite handle_all_snoc. by apply references_step.
Qed.

(** The requests keep the primary keys apart: if no two rows of a table
    share their key, and no two rows of [board_members] their board and
    user, this is so after every sequence of requests. *)
Theorem keys_unique_always trace db :
  keys_unique db → keys_unique (handle_all trace db).
Proof.
  intros Hkeys. induction trace as [| [[current_user utcnow] req] trace IH]
    using rev_ind; [done |].
  rewrite handle_all_snoc. by apply keys_unique_step.
Qed.

(** The completion fields of the checklist items agree after every
    sequence of requests if they did before: items are created incomplete
    without completion fields, toggled consistently, and otherwise only
    deleted. *)
Theorem completion_consistent_always trace db :
  (∀ i, i ∈ checklist_items db → completion_consistent i) →
  ∀ i, i ∈ checklist_items (handle_all trace db) → completion_consistent i.
Proof.
  intros Hinv. induction trace as [| [[current_user utcnow] req] trace IH]
    using rev_ind; [done |].
  rewrite handle_all_snoc. by apply completion_step.
Qed.

Lemma references_demo : references_hold Demo.db.
Proof.
  repeat split; intros r Hr; simpl in Hr;
    repeat (apply elem_of_cons in Hr as [-> | Hr];
            [apply (bool_decide_unpack _); vm_compute; exact I |]);
    by apply elem_of_nil in Hr.
Qed.

Lemma keys_unique_demo : keys_unique Demo.db.
Proof. repeat split; apply (bool_decide_unpack _); vm_compute; exact I. Qed.

Lemma completion_demo i :
  i ∈ checklist_items Demo.db → completion_consistent i.
Proof.
  intros Hi. simpl in Hi. apply list_elem_of_singleton in Hi as ->.
  split; reflexivity.
Qed.

Lemma references_hold_always_witness :
  references_hold Demo.db
  ∧ references_hold
      (handle_all
         [({| User.id := 3; User.name := "Cy" |}, 10,
           AddComment 1 (json_body (Some "Seen")));
          ({| User.id := 1; User.name := "Ann" |}, 20, DeleteCard 1);
          ({| User.id := 1; User.name := "Ann" |}, 30, DeleteBoard 1)]
         Demo.db).
Proof.
  split; [exact references_demo |].
  apply references_hold_always. exact references_demo.
Defined.

Lemma keys_unique_always_witness :
  keys_unique Demo.db
  ∧ keys_unique
      (handle_all
         [({| User.id := 1; User.name := "Ann" |}, 10,
           CreateList 1 (Some "Review") true);
          ({| User.id := 1; User.name := "Ann" |}, 20,
           AddBoardMember 1 (Some 2) (Some (Some "admin")));
          ({| User.id := 3; User.name := "Cy" |}, 30,
           CreateCard 4 None false)]
         Demo.db).
Proof.
  split; [exact keys_unique_demo |].
  apply keys_unique_always. exact keys_unique_demo.
Defined.

Lemma completion_consistent_always_witness :
  (∀ i, i ∈ checklist_items Demo.db → completion_consistent i)
  ∧ (∀ i, i ∈ checklist_items
              (handle_all
                 [({| User.id := 3; User.name := "Cy" |}, 10,
                   AddChecklistItem 1 (Some (Some "Print")));
                  ({| User.id := 4; User.name := "Di" |}, 20,
                   ToggleChecklistItem 2);
                  ({| User.id := 3; User.name := "Cy" |}, 30,
                   ToggleChecklistItem 1)]
                 Demo.db) →
          completion_consistent i).
Proof.
  split; [exact completion_demo |].
  apply completion_consistent_always. exact completion_demo.
Defined.

(** The items the last three requests leave: both complete, each with its
    user and time. *)
Example toggles_on_demo :
  (λ i, (TrelloChecklistItem.id i, TrelloChecklistItem.is_complete i,
         TrelloChecklistItem.completed_by i, TrelloChecklistItem.completed_at i))
  <$> checklist_items
        (handle_all
           [({| User.id := 3; User.name := "Cy" |}, 10,
             AddChecklistItem 1 (Some (Some "Print")));
            ({| User.id := 4; User.name := "Di" |}, 20, ToggleChecklistItem 2);
            ({| User.id := 3; User.name := "Cy" |}, 30, ToggleChecklistItem 1)]
           Demo.db)
  = [(1, true, Some 3, Some 30); (2, true, Some 4, Some 20)].
Proof. vm_compute. reflexivity. Qed.

(** ** Deleting a board *)

Lemma filter_key_not_in {A} (key : A → Z) (P : A → Prop)
    `{!∀ x, Decision (P x)} (rows : list A) :
  NoDup (key <$> rows) →
  filter (λ r, key r ∉ (key <$> filter P rows)) rows
  = filter (λ r, ¬ P r) rows.
Proof.
  intros Hdup. apply filter_ext_in. intros r Hr. split.
  - intros Hnot HP. apply Hnot, list_elem_of_fmap_2.
    by apply list_elem_of_filter.
  - intros HP Hin. apply list_elem_of_fmap in Hin as (r' & Hkey & Hr').
    apply list_elem_of_filter in Hr' as [HP' Hr'].
    by rewrite (unique_row key rows r r' Hdup Hr Hr' Hkey) in HP.
Qed.

(** An owner who deletes a board deletes what belongs to it and nothing
    else: the board, its lists, labels and activity entries are gone, and
    so are its member rows, save those whose user is not in the users
    table, which the session does not load; the member rows of the other
    boards stay; when the keys are unique the lists that stay are those
    of the other boards and the cards that stay are those of the lists of
    the other boards; and if no row referred to a missing row before, none
    does afterwards. *)
Theorem delete_board_cascades db u id board :
  Sql.get TrelloBoard.id id (boards db) = Some board →
  is_owner db board u = true →
  (serve_reply (delete_board u id) db).1 = redirect_url_for "trello.index"
  ∧ Sql.get TrelloBoard.id id (boards (serve_reply (delete_board u id) db).2)
    = None
  ∧ (∀ l, l ∈ lists (serve_reply (delete_board u id) db).2 →
          TrelloList.board_id l ≠ id)
  ∧ (∀ l, l ∈ labels (serve_reply (delete_board u id) db).2 →
          TrelloLabel.board_id l ≠ id)
  ∧ (∀ a, a ∈ activities (serve_reply (delete_board u id) db).2 →
          TrelloActivity.board_id a ≠ id)
  ∧ (∀ r, r ∈ board_members (serve_reply (delete_board u id) db).2 →
          BoardMember.board_id r = id →
          ¬ known_user db (BoardMember.user_id r))
  ∧ filter (λ r, BoardMember.board_id r ≠ id)
           (board_members (serve_reply (delete_board u id) db).2)
    = filter (λ r, BoardMember.board_id r ≠ id) (board_members db)
  ∧ (keys_unique db →
     lists (serve_reply (delete_board u id) db).2
     = filter (λ l, TrelloList.board_id l ≠ id) (lists db)
     ∧ cards (serve_reply (delete_board u id) db).2
       = filter (λ c, TrelloCard.list_id c ∉
                        (TrelloList.id <$>
                           filter (λ l, TrelloList.board_id l = id) (lists db)))
                (cards db))
  ∧ (references_hold db →
     references_hold (serve_reply (delete_board u id) db).2).
Proof.
  intros Hb Ho.
  assert (Hrun : serve_reply (delete_board u id) db
                 = (redirect_url_for "trello.index", delete_board_rows board db)).
  { unfold delete_board. run_reply. rewrite Hb. simpl. by rewrite Ho. }
  rewrite Hrun. cbn [fst snd].
  apply get_Some in Hb as [Hid Hin].
  split; [done |].
  split; [| split; [| split; [| split; [| split; [| split; [| split]]]]]].
  - unfold delete_board_rows, delete_list_rows, delete_card_rows,
      delete_checklist_rows. tables. rewrite Hid. apply get_delete.
  - unfold delete_board_rows, delete_list_rows, delete_card_rows,
      delete_checklist_rows. tables. rewrite Hid.
    intros l Hl Hlb. apply list_elem_of_filter in Hl as [Hnot Hl].
    apply Hnot, list_elem_of_fmap_2. by apply list_elem_of_filter.
  - unfold delete_board_rows, delete_list_rows, delete_card_rows,
      delete_checklist_rows. tables. rewrite Hid.
    intros l Hl. by apply list_elem_of_filter in Hl as [? _].
  - unfold delete_board_rows, delete_list_rows, delete_card_rows,
      delete_checklist_rows. tables. rewrite Hid.
    intros a Ha. by apply list_elem_of_filter in Ha as [? _].
  - unfold delete_board_rows, delete_list_rows, delete_card_rows,
      delete_checklist_rows. tables. rewrite Hid.
    intros r Hr Hrb Hknown. apply list_elem_of_filter in Hr as [Hkeep Hr].
    apply Hkeep. split; [done |].
    apply members_ids. split; [done |]. exists r. by rewrite Hid.
  - unfold delete_board_rows, delete_list_rows, delete_card_rows,
      delete_checklist_rows. tables. rewrite Hid.
    rewrite list_filter_filter. apply filter_ext_in. intros r Hr. split.
    + by intros [? _].
    + intros Hne. split; [done |]. by intros [? _].
  - intros (_ & Hl & Hc & _).
    unfold delete_board_rows, delete_list_rows, delete_card_rows,
      delete_checklist_rows. tables. rewrite Hid. split.
    + rewrite (filter_key_not_in TrelloList.id) by done.
      apply list_filter_iff. intros l. split; [done |].
      intros Hnn. by destruct (decide (TrelloList.board_id l = id)).
    + by rewrite (filter_key_not_in TrelloCard.id) by done.
  - apply references_delete_board_rows.
Qed.

Lemma delete_board_cascades_witness :
  is_owner Demo.db Demo.private_board 1 = true
  ∧ keys_unique Demo.db
  ∧ Sql.get TrelloBoard.id 1
      (boards (serve_reply (delete_board 1 1) Demo.db).2) = None
  ∧ lists (serve_reply (delete_board 1 1) Demo.db).2
    = filter (λ l, TrelloList.board_id l ≠ 1) (lists Demo.db).
Proof.
  destruct (delete_board_cascades Demo.db 1 1 Demo.private_board
              eq_refl eq_refl) as (_ & Hget & _ & _ & _ & _ & _ & Hframe & _).
  split; [reflexivity | split; [exact keys_unique_demo | split; [exact Hget |]]].
  exact (proj1 (Hframe keys_unique_demo)).
Defined.

(** What is left of the store of the examples when board 1 is deleted. *)
Example delete_board_on_demo :
  let db' := (serve_reply (delete_board 1 1) Demo.db).2 in
  (TrelloBoard.id <$> boards db') = [2]
  ∧ (TrelloList.id <$> lists db') = [3]
  ∧ cards db' = []
  ∧ comments db' = []
  ∧ checklists db' = []
  ∧ checklist_items db' = []
  ∧ board_members db' = [].
Proof. vm_compute. repeat split. Qed.

(** A member row of board 1 for user 99, who is not in the users table,
    outlives the board: the members loaded for the deletion are users, and
    this row has none. *)
Example delete_board_missing_user :
  let orphan := {| BoardMember.board_id := 1; BoardMember.user_id := 99;
                   BoardMember.role := Some "member" |} in
  board_members
    (serve_reply (delete_board 1 1)
                 (set_board_members (λ rows, rows ++ [orphan]) Demo.db)).2
  = [orphan].
Proof. vm_compute. reflexivity. Qed.

(** ** Deleting a card *)

(** Deleting a card takes its comments and checklists with it and leaves
    the rest: the card is gone, no comment or checklist of it is left, the
    lists are as they were, and one deleted_card entry with the title of
    the card is logged; when the keys are unique the cards, comments,
    checklists and items that stay are exactly those of the other cards. *)
Theorem delete_card_cascades db u id card lst board :
  Sql.get TrelloCard.id id (cards db) = Some card →
  Sql.get TrelloList.id (TrelloCard.list_id card) (lists db) = Some lst →
  Sql.get TrelloBoard.id (TrelloList.board_id lst) (boards db) = Some board →
  can_edit db board u = true →
  (serve (delete_card u id) db).1 = success
  ∧ Sql.get TrelloCard.id id (cards (serve (delete_card u id) db).2) = None
  ∧ (∀ c, c ∈ comments (serve (delete_card u id) db).2 →
          TrelloComment.card_id c ≠ id)
  ∧ (∀ c, c ∈ checklists (serve (delete_card u id) db).2 →
          TrelloChecklist.card_id c ≠ id)
  ∧ lists (serve (delete_card u id) db).2 = lists db
  ∧ (∃ entry,
       activities (serve (delete_card u id) db).2 = activities db ++ [entry]
       ∧ TrelloActivity.action entry = "deleted_card"
       ∧ TrelloActivity.details entry = Some [("title", TrelloCard.title card)])
  ∧ (keys_unique db →
     cards (serve (delete_card u id) db).2
     = filter (λ c, TrelloCard.id c ≠ id) (cards db)
     ∧ comments (serve (delete_card u id) db).2
       = filter (λ c, TrelloComment.card_id c ≠ id) (comments db)
     ∧ checklists (serve (delete_card u id) db).2
       = filter (λ c, TrelloChecklist.card_id c ≠ id) (checklists db)
     ∧ checklist_items (serve (delete_card u id) db).2
       = filter (λ i, TrelloChecklistItem.checklist_id i ∉
                        (TrelloChecklist.id <$>
                           filter (λ c, TrelloChecklist.card_id c = id)
                                  (checklists db)))
                (checklist_items db)).
Proof.
  intros Hc Hl Hb He.
  assert (Hrun : ∃ entry,
    serve (delete_card u id) db
    = (success,
       set_activities (λ rows, rows ++ [entry]) (delete_card_rows [id] db))
    ∧ TrelloActivity.action entry = "deleted_card"
    ∧ TrelloActivity.details entry = Some [("title", TrelloCard.title card)]).
  { unfold delete_card. run_view. rewrite Hc. simpl. rewrite Hl. simpl.
    rewrite Hb. simpl. rewrite He. simpl. by eexists. }
  destruct Hrun as (entry & -> & Haction & Hdetails).
  unfold delete_card_rows, delete_checklist_rows. tables.
  assert (Hone : ∀ x : Z, x ∈ [id] ↔ x = id)
    by (intros x; apply list_elem_of_singleton).
  split; [done |]. split; [| split; [| split; [| split; [| split]]]].
  - unfold Sql.get. apply head_None.
    apply filter_none. intros c Hc' Hid.
    apply list_elem_of_filter in Hc' as [Hnot _]. by apply Hnot, Hone.
  - intros c Hc'. apply list_elem_of_filter in Hc' as [Hnot _].
    intros Hid. by apply Hnot, Hone.
  - intros c Hc' Hid. apply list_elem_of_filter in Hc' as [Hnot Hin].
    apply Hnot, list_elem_of_fmap_2, list_elem_of_filter.
    split; [by apply Hone | done].
  - done.
  - by exists entry.
  - intros (_ & _ & _ & _ & _ & Hcl & _).
    split; [| split; [| split]].
    + apply list_filter_iff. intros c. by rewrite Hone.
    + apply list_filter_iff. intros c. by rewrite Hone.
    + rewrite (filter_key_not_in TrelloChecklist.id) by done.
      apply list_filter_iff. intros c. by rewrite Hone.
    + apply list_filter_iff. intros i.
      assert (Hsame : filter (λ c, TrelloChecklist.card_id c ∈ [id])
                             (checklists db)
                      = filter (λ c, TrelloChecklist.card_id c = id)
                               (checklists db))
        by (apply list_filter_iff; intros c; apply Hone).
      by rewrite Hsame.
Qed.

Lemma delete_card_cascades_witness :
  can_edit Demo.db Demo.private_board 3 = true
  ∧ keys_unique Demo.db
  ∧ Sql.get TrelloCard.id 1 (cards (serve (delete_card 3 1) Demo.db).2) = None
  ∧ comments (serve (delete_card 3 1) Demo.db).2
    = filter (λ c, TrelloComment.card_id c ≠ 1) (comments Demo.db).
Proof.
  destruct (delete_card_cascades Demo.db 3 1
              (Demo.card_of 1 1 "Write rota" (Some 1) (Some 100) false)
              (Demo.list_of 1 1 "To Do" (Some 0)) Demo.private_board
              eq_refl eq_refl eq_refl eq_refl)
    as (_ & Hget & _ & _ & _ & _ & Hframe).
  split; [reflexivity | split; [exact keys_unique_demo | split; [exact Hget |]]].
  exact (proj1 (proj2 (Hframe keys_unique_demo))).
Defined.

(** What is left of the store of the examples when card 1 is deleted. *)
Example delete_card_on_demo :
  let db' := (serve (delete_card 3 1) Demo.db).2 in
  (TrelloCard.id <$> cards db') = [2]
  ∧ comments db' = []
  ∧ checklists db' = []
  ∧ checklist_items db' = []
  ∧ (TrelloActivity.action <$> activities db') = ["deleted_card"].
Proof. vm_compute. repeat split. Qed.

(** ** Items and progress *)

Lemma filter_key_one {A} (key : A → Z) (rows : list A) r :
  NoDup (key <$> rows) → r ∈ rows →
  filter (λ x, key r = key x) rows = [r].
Proof.
  induction rows as [| x rows IH]; intros Hdup Hr.
  - by apply elem_of_nil in Hr.
  - rewrite fmap_cons in Hdup. apply list.NoDup_cons in Hdup as [Hx Hdup].
    rewrite filter_cons.
    apply elem_of_cons in Hr as [-> | Hr].
    + rewrite decide_True by done. f_equal.
      apply filter_none. intros y Hy Hkey. apply Hx. rewrite Hkey.
      by apply list_elem_of_fmap_2.
    + rewrite decide_False; [by apply IH |].
      intros Hkey. apply Hx. rewrite <- Hkey. by apply list_elem_of_fmap_2.
Qed.

Lemma card_items_snoc (cls : list TrelloChecklist.t)
    (items : list TrelloChecklistItem.t) (n : TrelloChecklistItem.t) :
  TrelloChecklistItem.is_complete n = false →
  length (cls ≫= λ cl,
            filter (λ i, TrelloChecklistItem.checklist_id i = TrelloChecklist.id cl)
                   (items ++ [n]))
  = (length (cls ≫= λ cl,
               filter (λ i, TrelloChecklistItem.checklist_id i
                            = TrelloChecklist.id cl) items)
     + length (filter (λ cl, TrelloChecklistItem.checklist_id n
                             = TrelloChecklist.id cl) cls))%nat
  ∧ length (filter (λ i, TrelloChecklistItem.is_complete i = true)
              (cls ≫= λ cl,
                 filter (λ i, TrelloChecklistItem.checklist_id i
                              = TrelloChecklist.id cl) (items ++ [n])))
    = length (filter (λ i, TrelloChecklistItem.is_complete i = true)
                (cls ≫= λ cl,
                   filter (λ i, TrelloChecklistItem.checklist_id i
                                = TrelloChecklist.id cl) items)).
Proof.
  intros Hn. induction cls as [| cl cls [IH1 IH2]]; [done |].
  rewrite !bind_cons, !list.filter_app, !length_app, IH1, IH2.
  rewrite (filter_cons _ cl cls), (filter_cons _ n []), filter_nil.
  destruct (decide (TrelloChecklistItem.checklist_id n = TrelloChecklist.id cl)).
  - rewrite filter_cons_False, filter_nil by (by rewrite Hn).
    simpl. split; lia.
  - rewrite ?filter_nil. simpl. split; lia.
Qed.

(** An item added to a checklist is incomplete and counts once in the
    progress of the card: the number of items goes up by one and the number
    of complete items stays, when the keys of the checklists are unique. *)
Theorem add_checklist_item_progress db u id content text checklist card lst board :
  Sql.get TrelloChecklist.id id (checklists db) = Some checklist →
  Sql.get TrelloCard.id (TrelloChecklist.card_id checklist) (cards db) = Some card →
  Sql.get TrelloList.id (TrelloCard.list_id card) (lists db) = Some lst →
  Sql.get TrelloBoard.id (TrelloList.board_id lst) (boards db) = Some board →
  can_edit db board u = true →
  json_get "" content = Some text →
  NoDup (TrelloChecklist.id <$> checklists db) →
  ∃ item,
    checklist_items (serve (add_checklist_item u id content) db).2
    = checklist_items db ++ [item]
    ∧ TrelloChecklistItem.checklist_id item = id
    ∧ TrelloChecklistItem.content item = text
    ∧ TrelloChecklistItem.is_complete item = false
    ∧ completion_consistent item
    ∧ checklist_progress (serve (add_checklist_item u id content) db).2 card
      = ((checklist_progress db card).1, (checklist_progress db card).2 + 1).
Proof.
  intros Hcl Hc Hl Hb He Htext Hdup.
  assert (Hrun : ∃ r item,
    serve (add_checklist_item u id content) db
    = (r, set_checklist_items (λ rows, rows ++ [item]) db)
    ∧ item = {| TrelloChecklistItem.id :=
                  Sql.next_id (TrelloChecklistItem.id <$> checklist_items db);
                TrelloChecklistItem.checklist_id := id;
                TrelloChecklistItem.content := text;
                TrelloChecklistItem.is_complete := false;
                TrelloChecklistItem.position := 0;
                TrelloChecklistItem.completed_by := None;
                TrelloChecklistItem.completed_at := None |}).
  { unfold add_checklist_item. run_view. rewrite Hcl. simpl. rewrite Hc. simpl.
    rewrite Hl. simpl. rewrite Hb. simpl. rewrite He. simpl. rewrite Htext.
    simpl. by eexists _, _. }
  destruct Hrun as (r & item & -> & Hitem).
  exists item. cbn [snd]. subst item.
  split; [done |]. split; [done |]. split; [done |]. split; [done |].
  split; [by split |].
  rewrite !checklist_progress_card_items. unfold card_items. tables.
  cbn [fst snd].
  destruct (card_items_snoc
              (filter (λ c, TrelloChecklist.card_id c = TrelloCard.id card)
                      (checklists db))
              (checklist_items db)
              {| TrelloChecklistItem.id :=
                   Sql.next_id (TrelloChecklistItem.id <$> checklist_items db);
                 TrelloChecklistItem.checklist_id := id;
                 TrelloChecklistItem.content := text;
                 TrelloChecklistItem.is_complete := false;
                 TrelloChecklistItem.position := 0;
                 TrelloChecklistItem.completed_by := None;
                 TrelloChecklistItem.completed_at := None |} eq_refl)
    as [Htotal Hcomplete].
  rewrite Htotal, Hcomplete. cbn [TrelloChecklistItem.checklist_id].
  apply get_Some in Hcl as [Hid Hin]. apply get_Some in Hc as [Hcard _].
  rewrite <- Hid.
  rewrite (filter_key_one TrelloChecklist.id
             (filter (λ c, TrelloChecklist.card_id c = TrelloCard.id card)
                     (checklists db)) checklist).
  - simpl. f_equal. lia.
  - by apply nodup_fmap_filter.
  - by apply list_elem_of_filter.
Qed.

Lemma add_checklist_item_progress_witness :
  can_edit Demo.db Demo.private_board 3 = true
  ∧ NoDup (TrelloChecklist.id <$> checklists Demo.db)
  ∧ checklist_progress Demo.db
      (Demo.card_of 1 1 "Write rota" (Some 1) (Some 100) false)
    = (0, 1)
  ∧ checklist_progress
      (serve (add_checklist_item 3 1 (Some (Some "Print"))) Demo.db).2
      (Demo.card_of 1 1 "Write rota" (Some 1) (Some 100) false)
    = (0, 2).
Proof.
  assert (Hdup : NoDup (TrelloChecklist.id <$> checklists Demo.db))
    by (apply (bool_decide_unpack _); vm_compute; exact I).
  destruct (add_checklist_item_progress Demo.db 3 1 (Some (Some "Print")) "Print"
              _ (Demo.card_of 1 1 "Write rota" (Some 1) (Some 100) false)
              (Demo.list_of 1 1 "To Do" (Some 0)) Demo.private_board
              eq_refl eq_refl eq_refl eq_refl eq_refl eq_refl Hdup)
    as (item & _ & _ & _ & _ & _ & Hprogress).
  split; [reflexivity | split; [exact Hdup | split; [reflexivity |]]].
  exact Hprogress.
Defined.

(** ** Board settings *)

(** The form of the board settings, posted by an owner: without a name
    nothing is stored; with a name the board takes the name and the
    visibility of the form, private exactly when the field is_private is
    'on', and keeps its key, its creator and its archive flag; a board made
    public this way can be viewed by every user. *)
Theorem edit_board_sets_visibility db u id form board :
  Sql.get TrelloBoard.id id (boards db) = Some board →
  is_owner db board u = true →
  (form_name form = None →
   serve (edit_board u id POST form) db = (unhandled "IntegrityError", db))
  ∧ (∀ name,
       form_name form = Some name →
       ∃ board',
         Sql.get TrelloBoard.id id
           (boards (serve (edit_board u id POST form) db).2) = Some board'
         ∧ TrelloBoard.id board' = TrelloBoard.id board
         ∧ TrelloBoard.name board' = name
         ∧ TrelloBoard.created_by board' = TrelloBoard.created_by board
         ∧ TrelloBoard.is_archived board' = TrelloBoard.is_archived board
         ∧ (TrelloBoard.is_private board' = true ↔ form_is_private form = Some "on")
         ∧ (form_is_private form ≠ Some "on" →
            ∀ u', can_view (serve (edit_board u id POST form) db).2 board' u'
                  = true)
         ∧ board_members (serve (edit_board u id POST form) db).2
           = board_members db).
Proof.
  intros Hb Ho. split.
  - intros Hname. unfold edit_board. run_view. rewrite Hb. simpl.
    rewrite Ho. simpl. by rewrite Hname.
  - intros name Hname.
    assert (Hrun : ∃ f entry,
      (serve (edit_board u id POST form) db).2
      = set_activities (λ rows, rows ++ [entry])
          (set_boards (Sql.update TrelloBoard.id id f) db)
      ∧ f = (λ b,
          {| TrelloBoard.id := TrelloBoard.id b;
             TrelloBoard.name := name;
             TrelloBoard.description := form_description form;
             TrelloBoard.background_color :=
               default "slate" (form_background_color form);
             TrelloBoard.is_private :=
               bool_decide (form_is_private form = Some "on");
             TrelloBoard.is_archived := TrelloBoard.is_archived b;
             TrelloBoard.created_by := TrelloBoard.created_by b |})).
    { unfold edit_board. run_view. rewrite Hb. simpl. rewrite Ho. simpl.
      rewrite Hname. simpl. by eexists _, _. }
    destruct Hrun as (f & entry & -> & Hf). tables.
    exists (f board). rewrite get_update, Hb by (by subst f). subst f.
    cbn [TrelloBoard.id TrelloBoard.name TrelloBoard.created_by
         TrelloBoard.is_archived TrelloBoard.is_private].
    repeat split; try done.
    + by intros ?%bool_decide_eq_true.
    + intros ?. by apply bool_decide_eq_true.
    + intros Hpublic u'. unfold can_view.
      cbn [TrelloBoard.is_private]. by rewrite bool_decide_false.
Qed.

Lemma edit_board_sets_visibility_witness :
  is_owner Demo.db Demo.private_board 1 = true
  ∧ form_name {| form_name := Some "Rota"; form_description := None;
                 form_background_color := None; form_is_private := None |}
    = Some "Rota"
  ∧ ∃ board',
      Sql.get TrelloBoard.id 1
        (boards (serve (edit_board 1 1 POST
                   {| form_name := Some "Rota"; form_description := None;
                      form_background_color := None;
                      form_is_private := None |}) Demo.db).2)
      = Some board'
      ∧ can_view
          (serve (edit_board 1 1 POST
                    {| form_name := Some "Rota"; form_description := None;
                       form_background_color := None;
                       form_is_private := None |}) Demo.db).2
          board' 9
        = true.
Proof.
  destruct (proj2 (edit_board_sets_visibility Demo.db 1 1
                     {| form_name := Some "Rota"; form_description := None;
                        form_background_color := None;
                        form_is_private := None |}
                     Demo.private_board eq_refl eq_refl) "Rota" eq_refl)
    as (board' & Hget & _ & _ & _ & _ & _ & Hview & _).
  split; [reflexivity | split; [reflexivity |]].
  exists board'. split; [exact Hget |]. apply Hview. by intros [=].
Defined.

(** ** Requests for rows that are not there *)


